(** * mara_db.shell: shell command generation for database clients

    A shallow embedding of [src/mara_db/shell.py].  The module builds shell
    command strings for [psql], [mysql], [sqsh] and [sqlite3]:

    - [query_command]            runs a query read from stdin;
    - [copy_to_stdout_command]   runs a query and writes the rows to stdout;
    - [copy_from_stdin_command]  loads rows read from stdin into a table;
    - [copy_command]             pipes the second into the third.

    Python strings are [string]s, [int]s are [Z], [None]-able attributes are
    [option]s, and the dictionary of configured databases is a [gmap]. *)

From Stdlib Require Import ZArith Ascii.
From stdpp Require Import base tactics option strings sorting gmap pretty.

(** ** Characters that a Rocq literal cannot hold directly *)

Definition nl : string := String "010"%char EmptyString.
Definition tab : string := String "009"%char EmptyString.
Definition dquote : string := String "034"%char EmptyString.
Definition squote : string := "'".
Definition backslash : string := String "092"%char EmptyString.

(** The Python literal [' \\\n']: a blank, a backslash and a line feed. *)
Definition line_continuation : string := " " +:+ backslash +:+ nl.

(** ** Python's truth value and [str()] *)

Class Truthy (A : Type) := truthy : A → bool.
Class PyStr (A : Type) := pystr : A → string.

Definition string_nonempty (s : string) : bool :=
  match s with EmptyString => false | String _ _ => true end.

#[global] Instance truthy_bool : Truthy bool := λ b, b.
#[global] Instance truthy_string : Truthy string := string_nonempty.
#[global] Instance truthy_Z : Truthy Z := λ n, negb (n =? 0)%Z.
#[global] Instance truthy_option {A} `{Truthy A} : Truthy (option A) :=
  λ o, match o with None => false | Some a => truthy a end.

#[global] Instance pystr_string : PyStr string := λ s, s.
#[global] Instance pystr_Z : PyStr Z := λ n, pretty n.
#[global] Instance pystr_option {A} `{PyStr A} : PyStr (option A) :=
  λ o, match o with None => "None" | Some a => pystr a end.

(** ** Substrings: Python's [p in s], [s.startswith(p)], [s.endswith(p)] *)

Definition Contains (p s : string) : Prop := ∃ a b, s = a +:+ p +:+ b.
Definition EndsWith (p s : string) : Prop := ∃ a, s = a +:+ p.

Fixpoint startswith (p s : string) : bool :=
  match p, s with
  | EmptyString, _ => true
  | String _ _, EmptyString => false
  | String c p', String d s' => if Ascii.eqb c d then startswith p' s' else false
  end.

Fixpoint contains (p s : string) : bool :=
  startswith p s ||
  match s with
  | EmptyString => false
  | String _ s' => contains p s'
  end.

(** [c in s] for a single character. *)
Fixpoint char_in (c : ascii) (s : string) : bool :=
  match s with
  | EmptyString => false
  | String d s' => Ascii.eqb c d || char_in c s'
  end.

Fixpoint all_chars (P : ascii → bool) (s : string) : bool :=
  match s with
  | EmptyString => true
  | String c s' => P c && all_chars P s'
  end.

(** The characters of a decimal numeral. *)
Definition is_digit_or_dash (c : ascii) : bool := char_in c "-0123456789".

(** [' '.join(ws)] *)
Fixpoint join_spaces (ws : list string) : string :=
  match ws with
  | [] => ""
  | [w] => w
  | w :: ws' => w +:+ " " +:+ join_spaces ws'
  end.

(** ** The database descriptors (module [mara_db.dbs])

    [shell.py] imports the descriptor classes from [mara_db.dbs].  Each one
    is a record of the attributes that [shell.py] reads from it; an
    attribute that was not given is [None]. *)

Module PostgreSQLDB.
(** Modelled from the spec: the class [dbs.PostgreSQLDB], with the
    attributes [host], [port], [database], [user] and [password]. *)
Record t := mk {
  host : option string; port : option Z; database : option string;
  user : option string; password : option string }.
End PostgreSQLDB.

Module MysqlDB.
(** Modelled from the spec: the class [dbs.MysqlDB], with the attributes
    [host], [port], [database], [user], [password] and the flag [ssl]. *)
Record t := mk {
  host : option string; port : option Z; database : option string;
  user : option string; password : option string; ssl : option bool }.
End MysqlDB.

Module SQLServerDB.
(** Modelled from the spec: the class [dbs.SQLServerDB], with the
    attributes [host], [database], [user] and [password]. *)
Record t := mk {
  host : option string; database : option string;
  user : option string; password : option string }.
End SQLServerDB.

Module SQLiteDB.
(** Modelled from the spec: the class [dbs.SQLiteDB]; [file_name] is the
    text of the path, that is [str(db.file_name)]. *)
Record t := mk { file_name : string }.
End SQLiteDB.

(** Modelled from the spec: the class [dbs.DB] and its four subclasses, a
    closed set of variants. *)
Inductive DB :=
  | PostgreSQL (db : PostgreSQLDB.t)
  | Mysql (db : MysqlDB.t)
  | SQLServer (db : SQLServerDB.t)
  | SQLite (db : SQLiteDB.t).

(** A Python value handed to one of the dispatching functions: an alias, a
    descriptor, or an object of any other class (only its class name is
    observed). *)
Inductive pyobj :=
  | PStr (alias : string)
  | PDb (db : DB)
  | PObj (class_name : string).

Definition class_name_of (o : pyobj) : string :=
  match o with
  | PStr _ => "str"
  | PDb (PostgreSQL _) => "PostgreSQLDB"
  | PDb (Mysql _) => "MysqlDB"
  | PDb (SQLServer _) => "SQLServerDB"
  | PDb (SQLite _) => "SQLiteDB"
  | PObj c => c
  end.

(** ** The process-wide configuration and the monad of the builders

    A builder either returns a value or raises; it runs in the process-wide
    configuration (module [mara_db.config]), which is threaded through every
    call so that what a call leaves behind is visible. *)

Inductive exn :=
  | NotImplementedError (msg : string)
  | AliasNotFound (alias : string)
  | AttributeError (class_name attribute : string).

Inductive outcome (A : Type) :=
  | Returns (a : A)
  | Raises (e : exn).
Arguments Returns {A} a.
Arguments Raises {A} e.

(** Modelled from the spec: the configuration collaborator
    ([mara_db.config]), a dictionary from aliases to descriptors and a
    default timezone. *)
Record config := mk_config {
  databases : gmap string DB;
  default_timezone : string }.

Definition py (A : Type) : Type := config → outcome A * config.

#[global] Instance py_ret : MRet py := λ A a cfg, (Returns a, cfg).
#[global] Instance py_bind : MBind py := λ A B f m cfg,
  match m cfg with
  | (Returns a, cfg') => f a cfg'
  | (Raises e, cfg') => (Raises e, cfg')
  end.

Definition raise {A} (e : exn) : py A := λ cfg, (Raises e, cfg).

(** Modelled from the spec: [config.default_timezone()], which reads the
    process-wide default timezone. *)
Definition config_default_timezone : py string :=
  λ cfg, (Returns (default_timezone cfg), cfg).

(** Modelled from the spec: [dbs.db(alias)], the lookup of the configuration
    collaborator, which is not part of [shell.py].  An alias that does not
    resolve raises [AliasNotFound]. *)
Definition dbs_db (alias : string) : py DB :=
  λ cfg, match databases cfg !! alias with
         | Some d => (Returns d, cfg)
         | None => (Raises (AliasNotFound alias), cfg)
         end.

(** ** [shlex.quote] (Python standard library)

    A string of safe characters only is returned as it is; the empty string
    becomes two single quotes; any other string is wrapped in single quotes,
    each single quote inside written as ['"'"']. *)

Definition is_safe_char (c : ascii) : bool :=
  let n := nat_of_ascii c in
  (((97 <=? n) && (n <=? 122)) || ((65 <=? n) && (n <=? 90)) ||
   ((48 <=? n) && (n <=? 57)))%nat
  || bool_decide (c ∈ ["_"; "@"; "%"; "+"; "="; ":"; ","; "."; "/"; "-"]%char).

Fixpoint all_safe (s : string) : bool :=
  match s with
  | EmptyString => true
  | String c s' => is_safe_char c && all_safe s'
  end.

Fixpoint replace_squote (s : string) : string :=
  match s with
  | EmptyString => EmptyString
  | String c s' =>
      if decide (c = "'"%char)
      then squote +:+ dquote +:+ squote +:+ dquote +:+ squote +:+ replace_squote s'
      else String c (replace_squote s')
  end.

Definition shlex_quote (s : string) : string :=
  if negb (truthy s) then "''"
  else if all_safe s then s
  else squote +:+ replace_squote s +:+ squote.

(** ** [query_command]

    String concatenation is written right-nested; Python evaluates the
    operands left to right, and so does the monad. *)

(** [timezone or config.default_timezone()] *)
Definition timezone_or_default (timezone : option string) : py string :=
  if truthy timezone then mret (pystr timezone) else config_default_timezone.

Definition query_command_PostgreSQLDB
    (db : PostgreSQLDB.t) (timezone : option string) (echo_queries : bool) : py string :=
  tz ← timezone_or_default timezone;
  mret ("PGTZ=" +:+ tz +:+ " "
        +:+ (if truthy (PostgreSQLDB.password db)
             then "PGPASSWORD=" +:+ pystr (PostgreSQLDB.password db) +:+ " " else "")
        +:+ "PGOPTIONS=--client-min-messages=warning psql"
        +:+ (if truthy (PostgreSQLDB.user db)
             then " --username=" +:+ pystr (PostgreSQLDB.user db) else "")
        +:+ (if truthy (PostgreSQLDB.host db)
             then " --host=" +:+ pystr (PostgreSQLDB.host db) else "")
        +:+ (if truthy (PostgreSQLDB.port db)
             then " --port=" +:+ pystr (PostgreSQLDB.port db) else "")
        +:+ (if echo_queries then " --echo-all" else " ")
        +:+ " --no-psqlrc --set ON_ERROR_STOP=on "
        +:+ (if truthy (PostgreSQLDB.database db)
             then pystr (PostgreSQLDB.database db) else "")).

Definition query_command_MysqlDB
    (db : MysqlDB.t) (timezone : option string) (echo_queries : bool) : py string :=
  mret ((if truthy (MysqlDB.password db)
         then "MYSQL_PWD='" +:+ pystr (MysqlDB.password db) +:+ "' " else "")
        +:+ "mysql "
        +:+ (if truthy (MysqlDB.user db)
             then " --user=" +:+ pystr (MysqlDB.user db) else "")
        +:+ (if truthy (MysqlDB.host db)
             then " --host=" +:+ pystr (MysqlDB.host db) else "")
        +:+ (if truthy (MysqlDB.port db)
             then " --port=" +:+ pystr (MysqlDB.port db) else "")
        +:+ (if truthy (MysqlDB.ssl db) then " --ssl" else "")
        +:+ (if truthy (MysqlDB.database db)
             then " " +:+ pystr (MysqlDB.database db) else "")).

(** The three filters in front of [sqsh]: the [sed] script that undoes and
    redoes the quoting of [$], and the two stages that append [;] and
    [;\n\go]. *)
Definition sqsh_prelude : string :=
  "sed 's/\\\\$/\$/g;s/\$/\\\\$/g' | "
  +:+ "(cat && echo ';')" +:+ line_continuation +:+ "  | "
  +:+ "(cat && echo ';" +:+ nl +:+ "\go')" +:+ line_continuation +:+ "  | ".

Definition query_command_SQLServerDB
    (db : SQLServerDB.t) (timezone : option string) (echo_queries : bool) : py string :=
  let command := sqsh_prelude in
  mret (command +:+ "sqsh "
        +:+ (if truthy (SQLServerDB.user db)
             then " -U " +:+ pystr (SQLServerDB.user db) else "")
        +:+ (if truthy (SQLServerDB.password db)
             then " -P " +:+ pystr (SQLServerDB.password db) else "")
        +:+ (if truthy (SQLServerDB.host db)
             then " -S " +:+ pystr (SQLServerDB.host db) else "")
        +:+ (if truthy (SQLServerDB.database db)
             then " -D " +:+ pystr (SQLServerDB.database db) else "")).

Definition query_command_SQLiteDB
    (db : SQLiteDB.t) (timezone : option string) (echo_queries : bool) : py string :=
  let file_name := shlex_quote (pystr (SQLiteDB.file_name db)) in
  mret (("(test -f " +:+ file_name +:+ " && cat || >&2 echo " +:+ file_name
         +:+ " not found)" +:+ line_continuation)
        +:+ "  | sqlite3 -bail " +:+ shlex_quote (pystr (SQLiteDB.file_name db))).

(** [functools.singledispatch] on the class of a descriptor.  [dbs.db] returns
    a descriptor, so the alias case of each generic function lands here. *)
Definition query_command_DB
    (d : DB) (timezone : option string) (echo_queries : bool) : py string :=
  match d with
  | PostgreSQL db => query_command_PostgreSQLDB db timezone echo_queries
  | Mysql db => query_command_MysqlDB db timezone echo_queries
  | SQLServer db => query_command_SQLServerDB db timezone echo_queries
  | SQLite db => query_command_SQLiteDB db timezone echo_queries
  end.

(** The generic function: the base raises, [str] resolves the alias and
    calls the generic function again, each descriptor class has its own
    implementation. *)
Definition query_command
    (db : pyobj) (timezone : option string) (echo_queries : bool) : py string :=
  match db with
  | PStr alias => d ← dbs_db alias; query_command_DB d timezone echo_queries
  | PDb d => query_command_DB d timezone echo_queries
  | PObj _ =>
      raise (NotImplementedError
        ("Please implement query_command for type " +:+ dquote
         +:+ class_name_of db +:+ dquote))
  end.

(** ** [copy_to_stdout_command] *)

Definition copy_to_stdout_command_PostgreSQLDB (db : PostgreSQLDB.t) : py string :=
  qc ← query_command (PDb (PostgreSQL db)) None false;
  mret (qc +:+ (" --tuples-only --no-align --field-separator='" +:+ tab +:+ "'"
                +:+ line_continuation)
        +:+ "  | sed '/^$/d'").

Definition copy_to_stdout_command_MysqlDB (db : MysqlDB.t) : py string :=
  qc ← query_command (PDb (Mysql db)) None true;
  mret (qc +:+ " --skip-column-names").

Definition copy_to_stdout_command_SQLServerDB (db : SQLServerDB.t) : py string :=
  qc ← query_command (PDb (SQLServer db)) None true;
  mret (qc +:+ " -m csv").

Definition copy_to_stdout_command_SQLiteDB (db : SQLiteDB.t) : py string :=
  qc ← query_command (PDb (SQLite db)) None true;
  mret (qc +:+ " -noheader -separator '" +:+ tab +:+ "' -quote").

Definition copy_to_stdout_command_DB (d : DB) : py string :=
  match d with
  | PostgreSQL db => copy_to_stdout_command_PostgreSQLDB db
  | Mysql db => copy_to_stdout_command_MysqlDB db
  | SQLServer db => copy_to_stdout_command_SQLServerDB db
  | SQLite db => copy_to_stdout_command_SQLiteDB db
  end.

Definition copy_to_stdout_command (db : pyobj) : py string :=
  match db with
  | PStr alias => d ← dbs_db alias; copy_to_stdout_command_DB d
  | PDb d => copy_to_stdout_command_DB d
  | PObj _ =>
      raise (NotImplementedError
        ("Please implement function copy_to_stdout_command for type " +:+ dquote
         +:+ class_name_of db +:+ dquote))
  end.

(** ** [copy_from_stdin_command] *)

(** The local variable [sql] of the PostgreSQL implementation: the statement
    starts as [COPY <table> FROM STDIN WITH] and each [if] appends to it. *)
Definition copy_sql
    (target_table : string) (csv_format skip_header : bool)
    (delimiter_char quote_char null_value_string : option string) : string :=
  let sql := "COPY " +:+ target_table +:+ " FROM STDIN WITH" in
  let sql := if csv_format then sql +:+ " CSV" else sql in
  let sql := if skip_header then sql +:+ " HEADER" else sql in
  let sql := match delimiter_char with
             | Some c => sql +:+ " DELIMITER AS '" +:+ pystr c +:+ "'"
             | None => sql
             end in
  let sql := match null_value_string with
             | Some n => sql +:+ " NULL AS '" +:+ pystr n +:+ "'"
             | None => sql
             end in
  let sql := match quote_char with
             | Some q => sql +:+ " QUOTE AS '" +:+ pystr q +:+ "'"
             | None => sql
             end in
  sql.

Definition copy_from_stdin_command_PostgreSQLDB
    (db : PostgreSQLDB.t) (target_table : string) (csv_format skip_header : bool)
    (delimiter_char quote_char null_value_string timezone : option string) : py string :=
  let sql := copy_sql target_table csv_format skip_header
               delimiter_char quote_char null_value_string in
  qc ← query_command (PDb (PostgreSQL db)) timezone true;
  mret (qc +:+ line_continuation +:+ "      --command=" +:+ dquote +:+ sql +:+ dquote).

(** The base function, reached for every class without an implementation. *)
Definition copy_from_stdin_command_base (db : pyobj) : py string :=
  raise (NotImplementedError
    ("Please implement copy_from_stdin_command for type " +:+ dquote
     +:+ class_name_of db +:+ dquote)).

Definition copy_from_stdin_command_DB
    (d : DB) (target_table : string) (csv_format skip_header : bool)
    (delimiter_char quote_char null_value_string timezone : option string) : py string :=
  match d with
  | PostgreSQL db =>
      copy_from_stdin_command_PostgreSQLDB db target_table csv_format skip_header
        delimiter_char quote_char null_value_string timezone
  | Mysql _ | SQLServer _ | SQLite _ => copy_from_stdin_command_base (PDb d)
  end.

Definition copy_from_stdin_command
    (db : pyobj) (target_table : string) (csv_format skip_header : bool)
    (delimiter_char quote_char null_value_string timezone : option string) : py string :=
  match db with
  | PStr alias =>
      d ← dbs_db alias;
      copy_from_stdin_command_DB d target_table csv_format skip_header
        delimiter_char quote_char null_value_string timezone
  | PDb d =>
      copy_from_stdin_command_DB d target_table csv_format skip_header
        delimiter_char quote_char null_value_string timezone
  | PObj _ => copy_from_stdin_command_base db
  end.

(** ** [copy_command] *)

(** The pipe between the two halves: [' \
' + '  | ']. *)
Definition pipe : string := line_continuation +:+ "  | ".

Definition copy_command_PostgreSQLDB_PostgreSQLDB
    (source_db target_db : PostgreSQLDB.t) (target_table : string)
    (timezone : option string) : py string :=
  out ← copy_to_stdout_command (PDb (PostgreSQL source_db));
  inp ← copy_from_stdin_command (PDb (PostgreSQL target_db)) target_table
          false false None None (Some "") timezone;
  mret (out +:+ pipe +:+ inp).

Definition copy_command_MysqlDB_PostgreSQLDB
    (source_db : MysqlDB.t) (target_db : PostgreSQLDB.t) (target_table : string)
    (timezone : option string) : py string :=
  out ← copy_to_stdout_command (PDb (Mysql source_db));
  inp ← copy_from_stdin_command (PDb (PostgreSQL target_db)) target_table
          false false None None (Some "NULL") timezone;
  mret (out +:+ pipe +:+ inp).

Definition copy_command_SQLServerDB_PostgreSQLDB
    (source_db : SQLServerDB.t) (target_db : PostgreSQLDB.t) (target_table : string)
    (timezone : option string) : py string :=
  out ← copy_to_stdout_command (PDb (SQLServer source_db));
  inp ← copy_from_stdin_command (PDb (PostgreSQL target_db)) target_table
          true true None None None timezone;
  mret (out +:+ pipe +:+ inp).

Definition copy_command_SQLiteDB_PostgreSQLDB
    (source_db : SQLiteDB.t) (target_db : PostgreSQLDB.t) (target_table : string)
    (timezone : option string) : py string :=
  out ← copy_to_stdout_command (PDb (SQLite source_db));
  inp ← copy_from_stdin_command (PDb (PostgreSQL target_db)) target_table
          true false None (Some "''") (Some "NULL") timezone;
  mret (out +:+ pipe +:+ inp).

(** The base function of the multimethod. *)
Definition copy_command_base (source_db target_db : pyobj) : py string :=
  raise (NotImplementedError
    ("Please implement copy_command for types " +:+ dquote
     +:+ class_name_of source_db +:+ dquote +:+ " and " +:+ dquote
     +:+ class_name_of target_db +:+ dquote)).

(** The registrations on two descriptor classes; every other pair of classes
    falls through to the base function. *)
Definition copy_command_resolved
    (source_db target_db : pyobj) (target_table : string)
    (timezone : option string) : py string :=
  match source_db, target_db with
  | PDb (PostgreSQL s), PDb (PostgreSQL t) =>
      copy_command_PostgreSQLDB_PostgreSQLDB s t target_table timezone
  | PDb (Mysql s), PDb (PostgreSQL t) =>
      copy_command_MysqlDB_PostgreSQLDB s t target_table timezone
  | PDb (SQLServer s), PDb (PostgreSQL t) =>
      copy_command_SQLServerDB_PostgreSQLDB s t target_table timezone
  | PDb (SQLite s), PDb (PostgreSQL t) =>
      copy_command_SQLiteDB_PostgreSQLDB s t target_table timezone
  | _, _ => copy_command_base source_db target_db
  end.

(** The multimethod: [multidispatch] on the classes of the first two
    arguments.  Registered are [(str, str)], [(dbs.DB, str)] and the four
    pairs of descriptor classes above. *)
Definition copy_command
    (source_db target_db : pyobj) (target_table : string)
    (timezone : option string) : py string :=
  match source_db, target_db with
  | PStr source_db_alias, PStr target_db_alias =>
      s ← dbs_db source_db_alias;
      t ← dbs_db target_db_alias;
      copy_command_resolved (PDb s) (PDb t) target_table timezone
  | PDb s, PStr target_db_alias =>
      t ← dbs_db target_db_alias;
      copy_command_resolved (PDb s) (PDb t) target_table timezone
  | _, _ => copy_command_resolved source_db target_db target_table timezone
  end.

(** ** The clauses of the [COPY] statement, as the specification lists them

    A second reading of [copy_sql], to compare it with: the clauses in the
    order CSV, HEADER, DELIMITER, NULL, QUOTE, each one present when its
    option is set. *)

Inductive copy_clause :=
  | CSV
  | HEADER
  | DELIMITER (c : string)
  | NULL (n : string)
  | QUOTE (q : string).

Definition clause_rank (cl : copy_clause) : nat :=
  match cl with
  | CSV => 0 | HEADER => 1 | DELIMITER _ => 2 | NULL _ => 3 | QUOTE _ => 4
  end.

Definition render_clause (cl : copy_clause) : string :=
  match cl with
  | CSV => " CSV"
  | HEADER => " HEADER"
  | DELIMITER c => " DELIMITER AS '" +:+ c +:+ "'"
  | NULL n => " NULL AS '" +:+ n +:+ "'"
  | QUOTE q => " QUOTE AS '" +:+ q +:+ "'"
  end.

Fixpoint render_clauses (cls : list copy_clause) : string :=
  match cls with
  | [] => ""
  | cl :: cls => render_clause cl +:+ render_clauses cls
  end.

Definition spec_copy_clauses
    (csv_format skip_header : bool)
    (delimiter_char quote_char null_value_string : option string) : list copy_clause :=
  (if csv_format then [CSV] else [])
  ++ (if skip_header then [HEADER] else [])
  ++ option_list (DELIMITER <$> delimiter_char)
  ++ option_list (NULL <$> null_value_string)
  ++ option_list (QUOTE <$> quote_char).

(** ** The [psql] command as a list of words

    A second reading of [query_command] for PostgreSQL, to compare it with:
    the words that single blanks separate in the command, where [tz] is the
    timezone in effect.  A descriptor attribute that is [None] or empty
    contributes no word. *)

Definition psql_words (db : PostgreSQLDB.t) (tz : string) (echo_queries : bool)
    : list string :=
  ["PGTZ=" +:+ tz]
  ++ (if truthy (PostgreSQLDB.password db)
      then ["PGPASSWORD=" +:+ pystr (PostgreSQLDB.password db)] else [])
  ++ ["PGOPTIONS=--client-min-messages=warning"; "psql"]
  ++ (if truthy (PostgreSQLDB.user db)
      then ["--username=" +:+ pystr (PostgreSQLDB.user db)] else [])
  ++ (if truthy (PostgreSQLDB.host db)
      then ["--host=" +:+ pystr (PostgreSQLDB.host db)] else [])
  ++ (if truthy (PostgreSQLDB.port db)
      then ["--port=" +:+ pystr (PostgreSQLDB.port db)] else [])
  ++ (if echo_queries then ["--echo-all"] else [""])
  ++ ["--no-psqlrc"; "--set"; "ON_ERROR_STOP=on";
      if truthy (PostgreSQLDB.database db)
      then pystr (PostgreSQLDB.database db) else ""].

(** The four attributes whose flag is conditional, the text that
    introduces each one in the command, and whether the descriptor has it. *)
Inductive pg_field := User | Host | Port | Password.

Definition flag_of (fld : pg_field) : string :=
  match fld with
  | User => "--username"
  | Host => "--host"
  | Port => "--port"
  | Password => "PGPASSWORD"
  end.

Definition field_truthy (fld : pg_field) (db : PostgreSQLDB.t) : bool :=
  match fld with
  | User => truthy (PostgreSQLDB.user db)
  | Host => truthy (PostgreSQLDB.host db)
  | Port => truthy (PostgreSQLDB.port db)
  | Password => truthy (PostgreSQLDB.password db)
  end.

(** The text of an attribute as the command shows it: nothing when it is
    [None] or empty. *)
Definition shown (o : option string) : string :=
  if truthy o then pystr o else "".

(** The caller's texts that the command interpolates. *)
Definition interpolated (db : PostgreSQLDB.t) (tz : string) : list string :=
  [tz; shown (PostgreSQLDB.password db); shown (PostgreSQLDB.user db);
   shown (PostgreSQLDB.host db); shown (PostgreSQLDB.database db)].

(** ** The guard in front of [sqlite3], read as a shell list

    A small model of the shell for the first stage of the SQLite command:
    simple commands joined by [&&] and [||] (equal precedence, grouping to
    the left), and the reading of a quoted word. *)

Inductive sh_simple :=
  | Sh_test_f (word : string)
  | Sh_cat
  | Sh_echo_to_stderr (args : list string).

Inductive sh_list :=
  | Sh_cmd (c : sh_simple)
  | Sh_and (l : sh_list) (c : sh_simple)
  | Sh_or (l : sh_list) (c : sh_simple).

Definition render_simple (c : sh_simple) : string :=
  match c with
  | Sh_test_f w => "test -f " +:+ w
  | Sh_cat => "cat"
  | Sh_echo_to_stderr args => ">&2 " +:+ join_spaces ("echo" :: args)
  end.

Fixpoint render_list (l : sh_list) : string :=
  match l with
  | Sh_cmd c => render_simple c
  | Sh_and l c => render_list l +:+ " && " +:+ render_simple c
  | Sh_or l c => render_list l +:+ " || " +:+ render_simple c
  end.

(** How the shell reads one word: text in single quotes stands for itself,
    and so does text in double quotes that holds no [$], backquote or
    backslash; outside quotes only the characters that [shlex.quote] leaves
    bare are read, anything else is not modelled ([None]). *)
Inductive sh_mode := Bare | InSingle | InDouble.

Fixpoint sh_word_go (m : sh_mode) (s : string) : option string :=
  match s with
  | EmptyString => match m with Bare => Some EmptyString | _ => None end
  | String c s' =>
      match m with
      | Bare =>
          if Ascii.eqb c "'" then sh_word_go InSingle s'
          else if Ascii.eqb c "034" then sh_word_go InDouble s'
          else if is_safe_char c then String c <$> sh_word_go Bare s'
          else None
      | InSingle =>
          if Ascii.eqb c "'" then sh_word_go Bare s'
          else String c <$> sh_word_go InSingle s'
      | InDouble =>
          if Ascii.eqb c "034" then sh_word_go Bare s'
          else if Ascii.eqb c "$" || Ascii.eqb c "`" || Ascii.eqb c "092" then None
          else String c <$> sh_word_go InDouble s'
      end
  end.

Definition sh_word : string → option string := sh_word_go Bare.

(** The simple commands that run, in order, and the exit status of the
    list; [fs] tells which paths are regular files.  [cat] and [echo]
    succeed. *)
Definition succeeds (fs : string → bool) (c : sh_simple) : bool :=
  match c with
  | Sh_test_f w => from_option fs false (sh_word w)
  | Sh_cat | Sh_echo_to_stderr _ => true
  end.

Fixpoint run_list (fs : string → bool) (l : sh_list) : list sh_simple * bool :=
  match l with
  | Sh_cmd c => ([c], succeeds fs c)
  | Sh_and l c =>
      let '(ran, ok) := run_list fs l in
      if ok then (ran ++ [c], succeeds fs c) else (ran, ok)
  | Sh_or l c =>
      let '(ran, ok) := run_list fs l in
      if ok then (ran, ok) else (ran ++ [c], succeeds fs c)
  end.

(** The first stage of the SQLite command for a quoted path [q]. *)
Definition sqlite_guard (q : string) : sh_list :=
  Sh_or (Sh_and (Sh_cmd (Sh_test_f q)) Sh_cat)
        (Sh_echo_to_stderr [q; "not"; "found"]).

(** ** The [mysql] and [sqsh] commands as lists of words

    Second readings of [query_command] for MySQL and SQLServer, to compare
    it with: the words that single blanks separate.  The blank that ends
    ['mysql '] and ['sqsh '] is followed by the blank that starts the next
    part, which leaves an empty word between the two. *)

Definition mysql_words (db : MysqlDB.t) : list string :=
  (if truthy (MysqlDB.password db)
   then ["MYSQL_PWD='" +:+ pystr (MysqlDB.password db) +:+ "'"] else [])
  ++ ["mysql"; ""]
  ++ (if truthy (MysqlDB.user db)
      then ["--user=" +:+ pystr (MysqlDB.user db)] else [])
  ++ (if truthy (MysqlDB.host db)
      then ["--host=" +:+ pystr (MysqlDB.host db)] else [])
  ++ (if truthy (MysqlDB.port db)
      then ["--port=" +:+ pystr (MysqlDB.port db)] else [])
  ++ (if truthy (MysqlDB.ssl db) then ["--ssl"] else [])
  ++ (if truthy (MysqlDB.database db)
      then [pystr (MysqlDB.database db)] else []).

Inductive mysql_field := MyUser | MyHost | MyPort | MySsl | MyPassword.

Definition mysql_flag_of (fld : mysql_field) : string :=
  match fld with
  | MyUser => "--user"
  | MyHost => "--host"
  | MyPort => "--port"
  | MySsl => "--ssl"
  | MyPassword => "MYSQL_PWD"
  end.

Definition mysql_field_truthy (fld : mysql_field) (db : MysqlDB.t) : bool :=
  match fld with
  | MyUser => truthy (MysqlDB.user db)
  | MyHost => truthy (MysqlDB.host db)
  | MyPort => truthy (MysqlDB.port db)
  | MySsl => truthy (MysqlDB.ssl db)
  | MyPassword => truthy (MysqlDB.password db)
  end.

Definition mysql_interpolated (db : MysqlDB.t) : list string :=
  [shown (MysqlDB.password db); shown (MysqlDB.user db);
   shown (MysqlDB.host db); shown (MysqlDB.database db)].

Definition sqsh_words (db : SQLServerDB.t) : list string :=
  ["sqsh"; ""]
  ++ (if truthy (SQLServerDB.user db)
      then ["-U"; pystr (SQLServerDB.user db)] else [])
  ++ (if truthy (SQLServerDB.password db)
      then ["-P"; pystr (SQLServerDB.password db)] else [])
  ++ (if truthy (SQLServerDB.host db)
      then ["-S"; pystr (SQLServerDB.host db)] else [])
  ++ (if truthy (SQLServerDB.database db)
      then ["-D"; pystr (SQLServerDB.database db)] else []).

Inductive sqsh_field := MsUser | MsPassword | MsHost | MsDatabase.

Definition sqsh_flag_of (fld : sqsh_field) : string :=
  match fld with
  | MsUser => "-U"
  | MsPassword => "-P"
  | MsHost => "-S"
  | MsDatabase => "-D"
  end.

Definition sqsh_field_truthy (fld : sqsh_field) (db : SQLServerDB.t) : bool :=
  match fld with
  | MsUser => truthy (SQLServerDB.user db)
  | MsPassword => truthy (SQLServerDB.password db)
  | MsHost => truthy (SQLServerDB.host db)
  | MsDatabase => truthy (SQLServerDB.database db)
  end.

Definition sqsh_interpolated (db : SQLServerDB.t) : list string :=
  [shown (SQLServerDB.user db); shown (SQLServerDB.password db);
   shown (SQLServerDB.host db); shown (SQLServerDB.database db)].

(** ** [functools.singledispatch]: the registry and the dispatch cache

    [@singledispatch] turns [query_command] into a generic function with
    two dictionaries of its own: the registry, from classes to
    implementations, filled by the decorator and the five [register] calls
    when the module is loaded, and the dispatch cache, which every call
    reads and, on a miss, extends.  The cache is the one piece of state
    that a call of [query_command] writes. *)

Inductive pyclass :=
  | Class_object
  | Class_str
  | Class_DB
  | Class_PostgreSQLDB
  | Class_MysqlDB
  | Class_SQLServerDB
  | Class_SQLiteDB
  | Class_other (name : string).

#[global] Instance pyclass_eq_dec : EqDecision pyclass.
Proof. solve_decision. Defined.

#[global] Instance pyclass_countable : Countable pyclass.
Proof.
  refine (inj_countable'
    (λ c, match c with
          | Class_object => inl 0 | Class_str => inl 1 | Class_DB => inl 2
          | Class_PostgreSQLDB => inl 3 | Class_MysqlDB => inl 4
          | Class_SQLServerDB => inl 5 | Class_SQLiteDB => inl 6
          | Class_other n => inr n
          end)
    (λ x, match x with
          | inl 0 => Class_object | inl 1 => Class_str | inl 2 => Class_DB
          | inl 3 => Class_PostgreSQLDB | inl 4 => Class_MysqlDB
          | inl 5 => Class_SQLServerDB | inl 6 => Class_SQLiteDB
          | inl _ => Class_object
          | inr n => Class_other n
          end) _).
  by intros [].
Defined.

(** [db.__class__] *)
Definition class_of (o : pyobj) : pyclass :=
  match o with
  | PStr _ => Class_str
  | PDb (PostgreSQL _) => Class_PostgreSQLDB
  | PDb (Mysql _) => Class_MysqlDB
  | PDb (SQLServer _) => Class_SQLServerDB
  | PDb (SQLite _) => Class_SQLiteDB
  | PObj c => Class_other c
  end.

(** [cls.__mro__]: the descriptor classes derive from [dbs.DB]; the class of
    any other object is taken to derive from [object] alone. *)
Definition mro (cls : pyclass) : list pyclass :=
  match cls with
  | Class_object => [Class_object]
  | Class_PostgreSQLDB | Class_MysqlDB | Class_SQLServerDB | Class_SQLiteDB =>
      [cls; Class_DB; Class_object]
  | Class_str | Class_DB | Class_other _ => [cls; Class_object]
  end.

(** The functions that [query_command] has in its registry: the decorated
    function and the five functions named [__]. *)
Inductive implementation :=
  | Impl_base
  | Impl_str
  | Impl_PostgreSQLDB
  | Impl_MysqlDB
  | Impl_SQLServerDB
  | Impl_SQLiteDB.

(** The registry once the module is loaded: [registry[object] = func] by the
    decorator, then one entry per [@query_command.register(...)]. *)
Definition query_command_registry : gmap pyclass implementation :=
  <[Class_SQLiteDB := Impl_SQLiteDB]>
    (<[Class_SQLServerDB := Impl_SQLServerDB]>
      (<[Class_MysqlDB := Impl_MysqlDB]>
        (<[Class_PostgreSQLDB := Impl_PostgreSQLDB]>
          (<[Class_str := Impl_str]>
            (<[Class_object := Impl_base]> ∅))))).

(** [_find_impl]: the entry of the first class of the method resolution
    order that has one; [object] always has. *)
Definition find_impl (cls : pyclass) (registry : gmap pyclass implementation)
    : implementation :=
  default Impl_base (head (omap (λ c, registry !! c) (mro cls))).

(** The state of the process: the configuration and the dispatch cache of
    [query_command]. *)
Record process := mk_process {
  process_config : config;
  dispatch_cache : gmap pyclass implementation }.

Definition cached (A : Type) : Type := process → outcome A * process.

#[global] Instance cached_ret : MRet cached := λ A a st, (Returns a, st).
#[global] Instance cached_bind : MBind cached := λ A B f m st,
  match m st with
  | (Returns a, st') => f a st'
  | (Raises e, st') => (Raises e, st')
  end.

(** A computation on the configuration, run in the process. *)
Definition lift {A} (m : py A) : cached A :=
  λ st, let '(r, cfg) := m (process_config st) in
        (r, mk_process cfg (dispatch_cache st)).

(** [dispatch(cls)]: the cached implementation, or on a miss the one of the
    registry ([registry[cls]], else [_find_impl]), which is then cached. *)
Definition dispatch (cls : pyclass) : cached implementation :=
  λ st, match dispatch_cache st !! cls with
        | Some impl => (Returns impl, st)
        | None =>
            let impl := match query_command_registry !! cls with
                        | Some impl => impl
                        | None => find_impl cls query_command_registry
                        end in
            (Returns impl,
             mk_process (process_config st) (<[cls := impl]> (dispatch_cache st)))
        end.

(** What an implementation reads from the object it is handed.  Python
    looks attributes up by name, so an implementation also runs on an
    object of another class that has every attribute it reads, and raises
    [AttributeError] at the first one that is missing. *)
Definition as_PostgreSQLDB (o : pyobj) : PostgreSQLDB.t + string :=
  match o with
  | PDb (PostgreSQL d) => inl d
  | PDb (Mysql d) =>
      inl (PostgreSQLDB.mk (MysqlDB.host d) (MysqlDB.port d) (MysqlDB.database d)
             (MysqlDB.user d) (MysqlDB.password d))
  | PDb (SQLServer _) => inr "port"
  | PDb (SQLite _) | PStr _ | PObj _ => inr "password"
  end.

Definition as_MysqlDB (o : pyobj) : MysqlDB.t + string :=
  match o with
  | PDb (Mysql d) => inl d
  | PDb (PostgreSQL _) => inr "ssl"
  | PDb (SQLServer _) => inr "port"
  | PDb (SQLite _) | PStr _ | PObj _ => inr "password"
  end.

Definition as_SQLServerDB (o : pyobj) : SQLServerDB.t + string :=
  match o with
  | PDb (SQLServer d) => inl d
  | PDb (PostgreSQL d) =>
      inl (SQLServerDB.mk (PostgreSQLDB.host d) (PostgreSQLDB.database d)
             (PostgreSQLDB.user d) (PostgreSQLDB.password d))
  | PDb (Mysql d) =>
      inl (SQLServerDB.mk (MysqlDB.host d) (MysqlDB.database d)
             (MysqlDB.user d) (MysqlDB.password d))
  | PDb (SQLite _) | PStr _ | PObj _ => inr "user"
  end.

Definition as_SQLiteDB (o : pyobj) : SQLiteDB.t + string :=
  match o with
  | PDb (SQLite d) => inl d
  | PDb _ | PStr _ | PObj _ => inr "file_name"
  end.

Definition attribute_error {A} (o : pyobj) (attribute : string) : cached A :=
  λ st, (Raises (AttributeError (class_name_of o) attribute), st).

(** The body of one implementation on the object [db].  [again] is the
    generic function, which the implementation for [str] calls on the
    descriptor of the alias; a key that is no string is no alias of the
    configuration. *)
Definition run_implementation
    (impl : implementation) (db : pyobj) (timezone : option string)
    (echo_queries : bool) (again : DB → cached string) : cached string :=
  match impl with
  | Impl_base =>
      lift (raise (NotImplementedError
        ("Please implement query_command for type " +:+ dquote
         +:+ class_name_of db +:+ dquote)))
  | Impl_str =>
      match db with
      | PStr alias => d ← lift (dbs_db alias); again d
      | PDb _ | PObj _ => lift (raise (AliasNotFound (class_name_of db)))
      end
  | Impl_PostgreSQLDB =>
      match as_PostgreSQLDB db with
      | inl d => lift (query_command_PostgreSQLDB d timezone echo_queries)
      | inr attribute => attribute_error db attribute
      end
  | Impl_MysqlDB =>
      match as_MysqlDB db with
      | inl d => lift (query_command_MysqlDB d timezone echo_queries)
      | inr attribute => attribute_error db attribute
      end
  | Impl_SQLServerDB =>
      match as_SQLServerDB db with
      | inl d => lift (query_command_SQLServerDB d timezone echo_queries)
      | inr attribute => attribute_error db attribute
      end
  | Impl_SQLiteDB =>
      match as_SQLiteDB db with
      | inl d => lift (query_command_SQLiteDB d timezone echo_queries)
      | inr attribute => attribute_error db attribute
      end
  end.

(** The generic function on a descriptor: the call that the implementation
    for [str] makes.  A descriptor handed to the implementation for [str]
    is looked up as an alias and calls nothing again. *)
Definition query_command_cached_DB
    (d : DB) (timezone : option string) (echo_queries : bool) : cached string :=
  impl ← dispatch (class_of (PDb d));
  run_implementation impl (PDb d) timezone echo_queries
    (λ _, lift (raise (AliasNotFound (class_name_of (PDb d))))).

(** The generic function as [singledispatch] runs it: the implementation
    that [dispatch] gives for the class of the first argument, called on
    the arguments. *)
Definition query_command_cached
    (db : pyobj) (timezone : option string) (echo_queries : bool) : cached string :=
  impl ← dispatch (class_of db);
  run_implementation impl db timezone echo_queries
    (λ d, query_command_cached_DB d timezone echo_queries).

(** Calls of [query_command] one after the other, each with its own
    arguments; the state they leave behind. *)
Fixpoint run_query_commands
    (calls : list (pyobj * option string * bool)) (st : process) : process :=
  match calls with
  | [] => st
  | (db, timezone, echo_queries) :: calls =>
      run_query_commands calls (query_command_cached db timezone echo_queries st).2
  end.

(** Every entry of the cache is the one that the registry gives. *)
Definition cache_sound (st : process) : Prop :=
  ∀ cls impl, dispatch_cache st !! cls = Some impl →
    impl = match query_command_registry !! cls with
           | Some impl => impl
           | None => find_impl cls query_command_registry
           end.

(** The configuration of the docstring examples: the alias [mara] and the
    default timezone that the printed commands show. *)
Definition example_config : config :=
  mk_config
    {[ "mara" := PostgreSQL
         (PostgreSQLDB.mk (Some "localhost") None (Some "mara") (Some "root") None) ]}
    "Europe/Berlin".

(** ** The module's entry points as calls, to run several in a row *)

Inductive call :=
  | Call_query_command (db : pyobj) (timezone : option string) (echo_queries : bool)
  | Call_copy_to_stdout_command (db : pyobj)
  | Call_copy_from_stdin_command
      (db : pyobj) (target_table : string) (csv_format skip_header : bool)
      (delimiter_char quote_char null_value_string timezone : option string)
  | Call_copy_command
      (source_db target_db : pyobj) (target_table : string) (timezone : option string).

Definition run_call (c : call) : py string :=
  match c with
  | Call_query_command db tz e => query_command db tz e
  | Call_copy_to_stdout_command db => copy_to_stdout_command db
  | Call_copy_from_stdin_command db t csv hd dl q n tz =>
      copy_from_stdin_command db t csv hd dl q n tz
  | Call_copy_command s t tbl tz => copy_command s t tbl tz
  end.

(** The configuration left behind by a sequence of calls. *)
Fixpoint run_calls (cs : list call) (cfg : config) : config :=
  match cs with
  | [] => cfg
  | c :: cs => run_calls cs (run_call c cfg).2
  end.

(** A computation that leaves the configuration as it found it. *)
Definition preserves {A} (m : py A) : Prop := ∀ cfg, (m cfg).2 = cfg.

(** ** The builders on the inputs of their docstrings *)

Example query_command_mara :
  (query_command (PStr "mara") (Some "America/New_York") true example_config).1
  = Returns ("PGTZ=America/New_York PGOPTIONS=--client-min-messages=warning psql"
             +:+ " --username=root --host=localhost --echo-all"
             +:+ " --no-psqlrc --set ON_ERROR_STOP=on mara").
Proof. reflexivity. Qed.

Example query_command_unknown_alias :
  (query_command (PStr "dwh") None true example_config).1
  = Raises (AliasNotFound "dwh").
Proof. reflexivity. Qed.

Example copy_to_stdout_command_postgres :
  (copy_to_stdout_command
     (PDb (PostgreSQL (PostgreSQLDB.mk (Some "localhost") None (Some "test") None None)))
     example_config).1
  = Returns ("PGTZ=Europe/Berlin PGOPTIONS=--client-min-messages=warning psql"
             +:+ " --host=localhost  --no-psqlrc --set ON_ERROR_STOP=on test"
             +:+ " --tuples-only --no-align --field-separator='" +:+ tab +:+ "' "
             +:+ backslash +:+ nl +:+ "  | sed '/^$/d'").
Proof. reflexivity. Qed.

Example copy_from_stdin_command_mara :
  (copy_from_stdin_command (PStr "mara") "foo" false false None None None None
     example_config).1
  = Returns ("PGTZ=Europe/Berlin PGOPTIONS=--client-min-messages=warning psql"
             +:+ " --username=root --host=localhost --echo-all"
             +:+ " --no-psqlrc --set ON_ERROR_STOP=on mara "
             +:+ backslash +:+ nl
             +:+ "      --command=" +:+ dquote +:+ "COPY foo FROM STDIN WITH" +:+ dquote).
Proof. reflexivity. Qed.

Example copy_command_sqlserver_postgres :
  (copy_command
     (PDb (SQLServer (SQLServerDB.mk None (Some "source_db") None None)))
     (PDb (PostgreSQL (PostgreSQLDB.mk None None (Some "target_db") None None)))
     "target_table" None example_config).1
  = Returns ("sed 's/\\\\$/\$/g;s/\$/\\\\$/g' | (cat && echo ';') "
             +:+ backslash +:+ nl
             +:+ "  | (cat && echo ';" +:+ nl +:+ "\go') " +:+ backslash +:+ nl
             +:+ "  | sqsh  -D source_db -m csv " +:+ backslash +:+ nl
             +:+ "  | PGTZ=Europe/Berlin PGOPTIONS=--client-min-messages=warning psql"
             +:+ " --echo-all --no-psqlrc --set ON_ERROR_STOP=on target_db "
             +:+ backslash +:+ nl
             +:+ "      --command=" +:+ dquote
             +:+ "COPY target_table FROM STDIN WITH CSV HEADER" +:+ dquote).
Proof. reflexivity. Qed.

Example copy_command_sqlite_postgres :
  (copy_command (PDb (SQLite (SQLiteDB.mk "a.db"))) (PStr "mara") "t" None
     example_config).1
  = Returns ("(test -f a.db && cat || >&2 echo a.db not found) " +:+ backslash +:+ nl
             +:+ "  | sqlite3 -bail a.db -noheader -separator '" +:+ tab +:+ "' -quote "
             +:+ backslash +:+ nl
             +:+ "  | PGTZ=Europe/Berlin PGOPTIONS=--client-min-messages=warning psql"
             +:+ " --username=root --host=localhost --echo-all"
             +:+ " --no-psqlrc --set ON_ERROR_STOP=on mara "
             +:+ backslash +:+ nl
             +:+ "      --command=" +:+ dquote
             +:+ "COPY t FROM STDIN WITH CSV NULL AS 'NULL' QUOTE AS ''''" +:+ dquote).
Proof. reflexivity. Qed.

Example shlex_quote_safe : shlex_quote "data/mara-1.db" = "data/mara-1.db".
Proof. reflexivity. Qed.

Example shlex_quote_blank : shlex_quote "my data.db" = "'my data.db'".
Proof. reflexivity. Qed.

Example shlex_quote_squote :
  shlex_quote "it's.db" = "'it'" +:+ dquote +:+ "'" +:+ dquote +:+ "'s.db'".
Proof. reflexivity. Qed.

Example shlex_quote_empty : shlex_quote "" = "''".
Proof. reflexivity. Qed.

(** ** Facts about strings *)

Section string_facts.
Implicit Types (p s a b : string) (c d : ascii).

Lemma app_nil_l s : "" +:+ s = s.
Proof. reflexivity. Qed.

Lemma app_cons c s a : String c s +:+ a = String c (s +:+ a).
Proof. reflexivity. Qed.

Lemma app_nil_r s : s +:+ "" = s.
Proof. induction s as [|c s IH]; [done|]. by rewrite app_cons, IH. Qed.

Lemma app_assoc s a b : (s +:+ a) +:+ b = s +:+ a +:+ b.
Proof. induction s as [|c s IH]; [done|]. by rewrite !app_cons, IH. Qed.

Lemma startswith_spec p s : startswith p s = true ↔ ∃ b, s = p +:+ b.
Proof.
  revert s. induction p as [|c p IH]; intros s; simpl.
  - split; [intros _; by exists s | done].
  - destruct s as [|d s].
    + split; [done | intros [b Hb]; by rewrite app_cons in Hb].
    + destruct (Ascii.eqb_spec c d) as [->|Hcd].
      * rewrite IH. split; intros [b Hb]; exists b.
        -- by rewrite app_cons, Hb.
        -- rewrite app_cons in Hb. by injection Hb.
      * split; [done | intros [b Hb]]. rewrite app_cons in Hb. congruence.
Qed.

Lemma contains_unfold p c s :
  contains p (String c s) = startswith p (String c s) || contains p s.
Proof. reflexivity. Qed.

Lemma contains_spec p s : contains p s = true ↔ Contains p s.
Proof.
  split.
  - induction s as [|c s IH]; simpl; intros H.
    + apply orb_true_iff in H as [H|H]; [|done].
      apply startswith_spec in H as [b ->]. by exists "", b.
    + apply orb_true_iff in H as [H|H].
      * apply startswith_spec in H as [b ->]. by exists "", b.
      * destruct (IH H) as (a & b & ->). by exists (String c a), b.
  - intros (a & b & ->). induction a as [|c a IH].
    + rewrite app_nil_l. destruct (p +:+ b) eqn:E; simpl; rewrite <- E;
        apply orb_true_iff; left; apply startswith_spec; by exists b.
    + rewrite app_cons, contains_unfold, IH. apply orb_true_r.
Qed.

Lemma not_contains p s : contains p s = false → ¬ Contains p s.
Proof. intros H ?%contains_spec. congruence. Qed.

Lemma EndsWith_app_r p a s : EndsWith p s → EndsWith p (a +:+ s).
Proof. intros [x ->]. exists (a +:+ x). by rewrite app_assoc. Qed.

Lemma EndsWith_refl p : EndsWith p p.
Proof. by exists "". Qed.

Lemma Contains_app_r p a s : Contains p s → Contains p (a +:+ s).
Proof. intros (x & y & ->). exists (a +:+ x), y. by rewrite app_assoc. Qed.

Lemma Contains_app_l p s b : Contains p s → Contains p (s +:+ b).
Proof.
  intros (x & y & ->). exists x, (y +:+ b). by rewrite !app_assoc.
Qed.

Lemma Contains_prefix p b : Contains p (p +:+ b).
Proof. by exists "", b. Qed.
End string_facts.

(** ** The builders leave the configuration alone *)

Lemma preserves_ret {A} (a : A) : preserves (mret a).
Proof. by intros cfg. Qed.

Lemma preserves_raise {A} (e : exn) : preserves (@raise A e).
Proof. by intros cfg. Qed.

Lemma preserves_bind {A B} (m : py A) (f : A → py B) :
  preserves m → (∀ a, preserves (f a)) → preserves (m ≫= f).
Proof.
  intros Hm Hf cfg. unfold mbind, py_bind.
  specialize (Hm cfg). destruct (m cfg) as [[a|e] cfg']; simpl in *; subst.
  - apply Hf.
  - done.
Qed.

Lemma preserves_dbs_db alias : preserves (dbs_db alias).
Proof. intros cfg. unfold dbs_db. by destruct (databases cfg !! alias). Qed.

Lemma preserves_config_default_timezone : preserves config_default_timezone.
Proof. by intros cfg. Qed.

Lemma preserves_timezone_or_default tz : preserves (timezone_or_default tz).
Proof.
  unfold timezone_or_default.
  destruct (truthy tz); [apply preserves_ret | apply preserves_config_default_timezone].
Qed.

Create HintDb preserves.
#[local] Hint Resolve preserves_ret preserves_raise preserves_dbs_db
  preserves_config_default_timezone preserves_timezone_or_default : preserves.

Ltac preserves_step :=
  first
    [ apply preserves_bind; [|intros ?]
    | progress eauto with preserves
    | match goal with |- preserves (match ?x with _ => _ end) => destruct x end ].

Lemma preserves_query_command_DB d tz e : preserves (query_command_DB d tz e).
Proof.
  destruct d; unfold query_command_DB, query_command_PostgreSQLDB,
    query_command_MysqlDB, query_command_SQLServerDB, query_command_SQLiteDB;
    repeat preserves_step.
Qed.
#[local] Hint Resolve preserves_query_command_DB : preserves.

Lemma preserves_query_command db tz e : preserves (query_command db tz e).
Proof. unfold query_command. repeat preserves_step. Qed.
#[local] Hint Resolve preserves_query_command : preserves.

Lemma preserves_copy_to_stdout_command db : preserves (copy_to_stdout_command db).
Proof.
  unfold copy_to_stdout_command, copy_to_stdout_command_DB,
    copy_to_stdout_command_PostgreSQLDB, copy_to_stdout_command_MysqlDB,
    copy_to_stdout_command_SQLServerDB, copy_to_stdout_command_SQLiteDB.
  repeat preserves_step.
Qed.
#[local] Hint Resolve preserves_copy_to_stdout_command : preserves.

Lemma preserves_copy_from_stdin_command db t csv hd dl q n tz :
  preserves (copy_from_stdin_command db t csv hd dl q n tz).
Proof.
  unfold copy_from_stdin_command, copy_from_stdin_command_DB,
    copy_from_stdin_command_PostgreSQLDB, copy_from_stdin_command_base.
  repeat preserves_step.
Qed.
#[local] Hint Resolve preserves_copy_from_stdin_command : preserves.

Lemma preserves_copy_command_resolved s t tbl tz :
  preserves (copy_command_resolved s t tbl tz).
Proof.
  unfold copy_command_resolved, copy_command_base,
    copy_command_PostgreSQLDB_PostgreSQLDB, copy_command_MysqlDB_PostgreSQLDB,
    copy_command_SQLServerDB_PostgreSQLDB, copy_command_SQLiteDB_PostgreSQLDB.
  repeat preserves_step.
Qed.
#[local] Hint Resolve preserves_copy_command_resolved : preserves.

Lemma preserves_copy_command s t tbl tz : preserves (copy_command s t tbl tz).
Proof. unfold copy_command. repeat preserves_step. Qed.

Lemma preserves_run_call c : preserves (run_call c).
Proof.
  destruct c; simpl; auto using preserves_copy_command with preserves.
Qed.

Lemma run_calls_id cs cfg : run_calls cs cfg = cfg.
Proof.
  induction cs as [|c cs IH]; simpl; [done|].
  by rewrite preserves_run_call.
Qed.

(** ** Running the monad *)

Lemma bind_returns {A B} (m : py A) (f : A → py B) cfg a :
  m cfg = (Returns a, cfg) → (m ≫= f) cfg = f a cfg.
Proof. intros H. unfold mbind, py_bind. by rewrite H. Qed.

Lemma bind_raises {A B} (m : py A) (f : A → py B) cfg e :
  m cfg = (Raises e, cfg) → (m ≫= f) cfg = (Raises e, cfg).
Proof. intros H. unfold mbind, py_bind. by rewrite H. Qed.

Lemma dbs_db_returns alias d cfg :
  databases cfg !! alias = Some d → dbs_db alias cfg = (Returns d, cfg).
Proof. intros H. unfold dbs_db. by rewrite H. Qed.

Lemma timezone_or_default_returns timezone cfg :
  ∃ tz, timezone_or_default timezone cfg = (Returns tz, cfg).
Proof.
  unfold timezone_or_default. destruct (truthy timezone); by eexists.
Qed.

(** On a descriptor every [query_command] returns a command. *)
Lemma query_command_DB_returns d timezone echo_queries cfg :
  ∃ s, query_command_DB d timezone echo_queries cfg = (Returns s, cfg).
Proof.
  destruct d as [db|db|db|db]; simpl; [|by eexists..].
  unfold query_command_PostgreSQLDB.
  destruct (timezone_or_default_returns timezone cfg) as [tz Htz].
  rewrite (bind_returns _ _ _ _ Htz). by eexists.
Qed.

Lemma copy_to_stdout_command_DB_returns d cfg :
  ∃ s, copy_to_stdout_command_DB d cfg = (Returns s, cfg).
Proof.
  destruct d as [db|db|db|db]; simpl;
    unfold copy_to_stdout_command_PostgreSQLDB, copy_to_stdout_command_MysqlDB,
      copy_to_stdout_command_SQLServerDB, copy_to_stdout_command_SQLiteDB, query_command.
  - destruct (query_command_DB_returns (PostgreSQL db) None false cfg) as [s Hs].
    rewrite (bind_returns _ _ _ _ Hs). by eexists.
  - destruct (query_command_DB_returns (Mysql db) None true cfg) as [s Hs].
    rewrite (bind_returns _ _ _ _ Hs). by eexists.
  - destruct (query_command_DB_returns (SQLServer db) None true cfg) as [s Hs].
    rewrite (bind_returns _ _ _ _ Hs). by eexists.
  - destruct (query_command_DB_returns (SQLite db) None true cfg) as [s Hs].
    rewrite (bind_returns _ _ _ _ Hs). by eexists.
Qed.

(** What the PostgreSQL loader returns: the query command, a line
    continuation, and the statement of [copy_sql] as the [--command]. *)
Lemma copy_from_stdin_command_PostgreSQLDB_eq db tbl csv hd dl q n tz cfg qc :
  query_command (PDb (PostgreSQL db)) tz true cfg = (Returns qc, cfg) →
  copy_from_stdin_command (PDb (PostgreSQL db)) tbl csv hd dl q n tz cfg
  = (Returns (qc +:+ line_continuation +:+ "      --command=" +:+ dquote
              +:+ copy_sql tbl csv hd dl q n +:+ dquote), cfg).
Proof.
  intros Hqc. simpl. unfold copy_from_stdin_command_PostgreSQLDB.
  by rewrite (bind_returns _ _ _ _ Hqc).
Qed.

(** On two descriptors the multimethod goes straight to the registrations
    on descriptor classes. *)
Lemma copy_command_on_descriptors s t tbl tz :
  copy_command (PDb s) (PDb t) tbl tz = copy_command_resolved (PDb s) (PDb t) tbl tz.
Proof. reflexivity. Qed.

(** An alias as the target is resolved before dispatch. *)
Lemma copy_command_alias_target s a t tbl tz cfg :
  databases cfg !! a = Some t →
  copy_command (PDb s) (PStr a) tbl tz cfg = copy_command (PDb s) (PDb t) tbl tz cfg.
Proof.
  intros Ha. simpl. by rewrite (bind_returns _ _ _ _ (dbs_db_returns _ _ _ Ha)).
Qed.

(** Two aliases are both resolved before dispatch. *)
Lemma copy_command_alias_both a s b t tbl tz cfg :
  databases cfg !! a = Some s → databases cfg !! b = Some t →
  copy_command (PStr a) (PStr b) tbl tz cfg = copy_command (PDb s) (PDb t) tbl tz cfg.
Proof.
  intros Ha Hb. simpl.
  rewrite (bind_returns _ _ _ _ (dbs_db_returns _ _ _ Ha)).
  by rewrite (bind_returns _ _ _ _ (dbs_db_returns _ _ _ Hb)).
Qed.

Lemma query_command_returns d timezone echo_queries cfg :
  ∃ s, query_command (PDb d) timezone echo_queries cfg = (Returns s, cfg).
Proof. apply query_command_DB_returns. Qed.

Lemma copy_to_stdout_command_returns d cfg :
  ∃ s, copy_to_stdout_command (PDb d) cfg = (Returns s, cfg).
Proof. apply copy_to_stdout_command_DB_returns. Qed.

(** A pipeline of two commands that return is the two joined by the pipe. *)
Lemma pipeline_returns (m1 m2 : py string) cfg out inp :
  m1 cfg = (Returns out, cfg) → m2 cfg = (Returns inp, cfg) →
  (out ← m1; inp ← m2; mret (out +:+ pipe +:+ inp)) cfg
  = (Returns (out +:+ pipe +:+ inp), cfg).
Proof.
  intros H1 H2. rewrite (bind_returns _ _ _ _ H1).
  by rewrite (bind_returns _ _ _ _ H2).
Qed.

(** Every source descriptor has a registration with a PostgreSQL target. *)
Lemma copy_command_to_postgres_returns s t tbl tz cfg :
  ∃ cmd, copy_command (PDb s) (PDb (PostgreSQL t)) tbl tz cfg = (Returns cmd, cfg).
Proof.
  destruct (copy_to_stdout_command_returns s cfg) as [out Hout].
  destruct (query_command_returns (PostgreSQL t) tz true cfg) as [qc Hqc].
  destruct s; eexists; simpl;
    unfold copy_command_PostgreSQLDB_PostgreSQLDB, copy_command_MysqlDB_PostgreSQLDB,
      copy_command_SQLServerDB_PostgreSQLDB, copy_command_SQLiteDB_PostgreSQLDB;
    (apply pipeline_returns;
      [exact Hout | by apply copy_from_stdin_command_PostgreSQLDB_eq]).
Qed.

(** ** MySQL: the command of the docstring example *)

(** C1: for [MysqlDB(host='localhost', database='test')] the command is
    [mysql  --host=localhost test]: it holds [--host=localhost] and ends with
    [test], and it does not hold [--default-character-set=utf8mb4], which
    the docstring of [query_command] prints for this very call. *)
Theorem query_command_mysql_without_charset (cfg : config) :
  query_command
    (PDb (Mysql (MysqlDB.mk (Some "localhost") None (Some "test") None None None)))
    None true cfg
  = (Returns "mysql  --host=localhost test", cfg)
  ∧ ¬ Contains "--default-character-set=utf8mb4" "mysql  --host=localhost test"
  ∧ Contains "--host=localhost" "mysql  --host=localhost test"
  ∧ EndsWith "test" "mysql  --host=localhost test".
Proof.
  split; [reflexivity|]. split; [|split].
  - apply not_contains. by vm_compute.
  - by exists "mysql  ", " test".
  - by exists "mysql  --host=localhost ".
Qed.

(** ** [copy_command]: what the multimethod has a registration for *)

(** C2: an alias as the source with a descriptor as the target has no
    registration: the call raises, also when the alias resolves to a
    descriptor [s], where the same call on [s] itself returns a command. *)
Theorem copy_command_alias_source_raises
    (a : string) (s : DB) (t : PostgreSQLDB.t) (tbl : string)
    (tz : option string) (dbs : gmap string DB) (default_tz : string) :
  let cfg := mk_config (<[a:=s]> dbs) default_tz in
  dbs_db a cfg = (Returns s, cfg)
  ∧ copy_command (PStr a) (PDb (PostgreSQL t)) tbl tz cfg
    = (Raises (NotImplementedError
         ("Please implement copy_command for types " +:+ dquote +:+ "str"
          +:+ dquote +:+ " and " +:+ dquote +:+ "PostgreSQLDB" +:+ dquote)), cfg)
  ∧ ∃ cmd, copy_command (PDb s) (PDb (PostgreSQL t)) tbl tz cfg = (Returns cmd, cfg).
Proof.
  intros cfg. split; [|split].
  - apply dbs_db_returns. apply lookup_insert_eq.
  - reflexivity.
  - apply copy_command_to_postgres_returns.
Qed.

(** C6: on two descriptors [copy_command] returns a command exactly when
    the target is a PostgreSQL descriptor, whatever the source; for every
    other target it raises the [NotImplementedError] of the base function
    and returns nothing.  The pair (SQLite, MySQL) is one of them. *)
Theorem copy_command_registered_pairs
    (s t : DB) (tbl : string) (tz : option string) (cfg : config) :
  match t with
  | PostgreSQL _ =>
      ∃ cmd, copy_command (PDb s) (PDb t) tbl tz cfg = (Returns cmd, cfg)
  | Mysql _ | SQLServer _ | SQLite _ =>
      copy_command (PDb s) (PDb t) tbl tz cfg
      = (Raises (NotImplementedError
           ("Please implement copy_command for types " +:+ dquote
            +:+ class_name_of (PDb s) +:+ dquote +:+ " and " +:+ dquote
            +:+ class_name_of (PDb t) +:+ dquote)), cfg)
  end
  ∧ ∀ lite my,
      copy_command (PDb (SQLite lite)) (PDb (Mysql my)) tbl tz cfg
      = (Raises (NotImplementedError
           ("Please implement copy_command for types " +:+ dquote
            +:+ "SQLiteDB" +:+ dquote +:+ " and " +:+ dquote
            +:+ "MysqlDB" +:+ dquote)), cfg).
Proof.
  split; [|reflexivity].
  destruct t as [t|t|t|t].
  - apply copy_command_to_postgres_returns.
  - by destruct s.
  - by destruct s.
  - by destruct s.
Qed.

(** C4: for a SQLServer source and a PostgreSQL target [copy_command] is
    [copy_to_stdout_command] of the source piped into
    [copy_from_stdin_command] of the target with [csv_format] and
    [skip_header] set and the timezone passed on; both halves return, and
    the statement of the loader ends in [WITH CSV HEADER]. *)
Theorem copy_command_sqlserver_to_postgres
    (source_db : SQLServerDB.t) (target_db : PostgreSQLDB.t) (tbl : string)
    (tz : option string) (cfg : config) :
  copy_command (PDb (SQLServer source_db)) (PDb (PostgreSQL target_db)) tbl tz
  = (out ← copy_to_stdout_command (PDb (SQLServer source_db));
     inp ← copy_from_stdin_command (PDb (PostgreSQL target_db)) tbl
             true true None None None tz;
     mret (out +:+ pipe +:+ inp))
  ∧ ∃ out inp,
      copy_to_stdout_command (PDb (SQLServer source_db)) cfg = (Returns out, cfg)
      ∧ copy_from_stdin_command (PDb (PostgreSQL target_db)) tbl
          true true None None None tz cfg = (Returns inp, cfg)
      ∧ copy_command (PDb (SQLServer source_db)) (PDb (PostgreSQL target_db)) tbl tz cfg
        = (Returns (out +:+ pipe +:+ inp), cfg)
      ∧ EndsWith ("--command=" +:+ dquote +:+ "COPY " +:+ tbl
                  +:+ " FROM STDIN WITH CSV HEADER" +:+ dquote) inp.
Proof.
  split; [reflexivity|].
  destruct (copy_to_stdout_command_returns (SQLServer source_db) cfg) as [out Hout].
  destruct (query_command_returns (PostgreSQL target_db) tz true cfg) as [qc Hqc].
  pose proof (copy_from_stdin_command_PostgreSQLDB_eq
                target_db tbl true true None None None tz cfg qc Hqc) as Hinp.
  eexists out, _. split; [exact Hout|]. split; [exact Hinp|]. split.
  - by apply pipeline_returns.
  - exists (qc +:+ line_continuation +:+ "      ").
    unfold copy_sql. by rewrite !app_assoc.
Qed.

(** ** [copy_from_stdin_command] *)

(** C5: on a descriptor [copy_from_stdin_command] returns a command when
    the descriptor is a PostgreSQL one, and raises the
    [NotImplementedError] of the base function, naming the class, when it
    is a MySQL, SQLServer or SQLite one. *)
Theorem copy_from_stdin_command_postgres_only
    (d : DB) (tbl : string) (csv_format skip_header : bool)
    (delimiter_char quote_char null_value_string tz : option string) (cfg : config) :
  match d with
  | PostgreSQL _ =>
      ∃ cmd, copy_from_stdin_command (PDb d) tbl csv_format skip_header
               delimiter_char quote_char null_value_string tz cfg
             = (Returns cmd, cfg)
  | Mysql _ | SQLServer _ | SQLite _ =>
      copy_from_stdin_command (PDb d) tbl csv_format skip_header
        delimiter_char quote_char null_value_string tz cfg
      = (Raises (NotImplementedError
           ("Please implement copy_from_stdin_command for type " +:+ dquote
            +:+ class_name_of (PDb d) +:+ dquote)), cfg)
  end.
Proof.
  destruct d as [db|db|db|db]; [|reflexivity..].
  destruct (query_command_returns (PostgreSQL db) tz true cfg) as [qc Hqc].
  eexists. by apply copy_from_stdin_command_PostgreSQLDB_eq.
Qed.

(** C10: with every formatting option at its default the statement is
    [COPY <table> FROM STDIN WITH], nothing after the keyword, and the
    loader hands it to the query command as its [--command]. *)
Theorem copy_from_stdin_command_defaults
    (db : PostgreSQLDB.t) (tbl : string) (tz : option string) (cfg : config) :
  copy_sql tbl false false None None None = "COPY " +:+ tbl +:+ " FROM STDIN WITH"
  ∧ ∃ qc,
      query_command (PDb (PostgreSQL db)) tz true cfg = (Returns qc, cfg)
      ∧ copy_from_stdin_command (PDb (PostgreSQL db)) tbl
          false false None None None tz cfg
        = (Returns (qc +:+ line_continuation +:+ "      --command=" +:+ dquote
                    +:+ "COPY " +:+ tbl +:+ " FROM STDIN WITH" +:+ dquote), cfg).
Proof.
  split; [reflexivity|].
  destruct (query_command_returns (PostgreSQL db) tz true cfg) as [qc Hqc].
  exists qc. split; [exact Hqc|].
  rewrite (copy_from_stdin_command_PostgreSQLDB_eq _ _ _ _ _ _ _ _ _ _ Hqc).
  unfold copy_sql. by rewrite !app_assoc.
Qed.

(** The statement is the head followed by the clauses of the
    specification's list. *)
Lemma copy_sql_render tbl csv hd dl q n :
  copy_sql tbl csv hd dl q n
  = "COPY " +:+ tbl +:+ " FROM STDIN WITH"
    +:+ render_clauses (spec_copy_clauses csv hd dl q n).
Proof.
  unfold copy_sql, spec_copy_clauses.
  destruct csv, hd, dl as [dl|], q as [q|], n as [n|]; simpl;
    unfold pystr, pystr_string; by rewrite ?app_assoc, ?app_nil_r.
Qed.

(** C3: the statement that [copy_from_stdin_command] hands to the query
    command is [COPY <table> FROM STDIN WITH] followed by the clauses CSV,
    HEADER, DELIMITER, NULL, QUOTE in this order, each one there exactly
    when its option is set; with all five set to the values of the
    specification's example it is the statement of the example. *)
Theorem copy_from_stdin_command_clause_order
    (db : PostgreSQLDB.t) (tbl : string) (csv_format skip_header : bool)
    (delimiter_char quote_char null_value_string tz : option string) (cfg : config) :
  let cls := spec_copy_clauses csv_format skip_header
               delimiter_char quote_char null_value_string in
  (∃ qc,
     query_command (PDb (PostgreSQL db)) tz true cfg = (Returns qc, cfg)
     ∧ copy_from_stdin_command (PDb (PostgreSQL db)) tbl csv_format skip_header
         delimiter_char quote_char null_value_string tz cfg
       = (Returns (qc +:+ line_continuation +:+ "      --command=" +:+ dquote
                   +:+ ("COPY " +:+ tbl +:+ " FROM STDIN WITH" +:+ render_clauses cls)
                   +:+ dquote), cfg))
  ∧ StronglySorted lt (clause_rank <$> cls)
  ∧ (CSV ∈ cls ↔ csv_format = true)
  ∧ (HEADER ∈ cls ↔ skip_header = true)
  ∧ (∀ c, DELIMITER c ∈ cls ↔ delimiter_char = Some c)
  ∧ (∀ n, NULL n ∈ cls ↔ null_value_string = Some n)
  ∧ (∀ q, QUOTE q ∈ cls ↔ quote_char = Some q)
  ∧ copy_sql tbl true true (Some ",") (Some dquote) (Some "")
    = "COPY " +:+ tbl +:+ " FROM STDIN WITH CSV HEADER DELIMITER AS ',' NULL AS '' QUOTE AS '"
      +:+ dquote +:+ "'".
Proof.
  intros cls. split; [|split].
  - destruct (query_command_returns (PostgreSQL db) tz true cfg) as [qc Hqc].
    exists qc. split; [exact Hqc|].
    rewrite (copy_from_stdin_command_PostgreSQLDB_eq _ _ _ _ _ _ _ _ _ _ Hqc).
    by rewrite copy_sql_render.
  - subst cls. unfold spec_copy_clauses.
    destruct csv_format, skip_header, delimiter_char, quote_char, null_value_string;
      simpl; repeat constructor.
  - subst cls. unfold spec_copy_clauses.
    split_and!; try intros ?;
      try (destruct csv_format, skip_header, delimiter_char, quote_char,
             null_value_string; simpl;
           rewrite ?elem_of_cons, ?elem_of_nil; intuition congruence).
    rewrite copy_sql_render. simpl. by rewrite ?app_nil_r, ?app_assoc.
Qed.

(** ** SQLite: the guard and the quoted path *)

Lemma safe_char_not_quote c :
  is_safe_char c = true → Ascii.eqb c "'" = false ∧ Ascii.eqb c "034" = false.
Proof.
  intros Hc. split.
  - destruct (Ascii.eqb_spec c "'") as [->|]; [by vm_compute in Hc | done].
  - destruct (Ascii.eqb_spec c "034") as [->|]; [by vm_compute in Hc | done].
Qed.

(** A word of safe characters reads as itself. *)
Lemma sh_word_go_bare_safe s : all_safe s = true → sh_word_go Bare s = Some s.
Proof.
  induction s as [|c s IH]; simpl; [done|].
  intros [Hc Hs]%andb_true_iff.
  destruct (safe_char_not_quote c Hc) as [-> ->].
  by rewrite Hc, (IH Hs).
Qed.

(** Inside single quotes the text written by [replace_squote] reads as the
    text it was written from. *)
Lemma sh_word_go_single s :
  sh_word_go InSingle (replace_squote s +:+ squote) = Some s.
Proof.
  induction s as [|c s IH]; [done|].
  simpl replace_squote. destruct (decide (c = "'"%char)) as [->|Hc].
  - rewrite !app_assoc. unfold squote, dquote. rewrite !app_cons, !app_nil_l.
    simpl. fold squote. by rewrite IH.
  - rewrite app_cons. simpl.
    destruct (Ascii.eqb_spec c "'"); [done|]. by rewrite IH.
Qed.

(** The shell reads the word that [shlex.quote] writes as the text that was
    quoted. *)
Lemma sh_word_shlex_quote s : sh_word (shlex_quote s) = Some s.
Proof.
  unfold sh_word, shlex_quote.
  destruct s as [|c s]; [done|]. simpl negb.
  destruct (all_safe (String c s)) eqn:Hsafe.
  - by apply sh_word_go_bare_safe.
  - change (sh_word_go InSingle (replace_squote (String c s) +:+ squote)
            = Some (String c s)).
    apply sh_word_go_single.
Qed.

(** C8: the SQLite command is the guard in parentheses piped into
    [sqlite3 -bail] on the quoted file name.  The guard tests the quoted
    file name, which the shell reads back as the file name of the
    descriptor; when that file is missing the list runs the test and then
    the [echo] of [<file> not found] to standard error and does not run
    [cat], and when it is there it runs the test and [cat]. *)
Theorem query_command_sqlite_guard
    (db : SQLiteDB.t) (timezone : option string) (echo_queries : bool)
    (cfg : config) (fs : string → bool) :
  let q := shlex_quote (SQLiteDB.file_name db) in
  query_command (PDb (SQLite db)) timezone echo_queries cfg
  = (Returns ("(" +:+ render_list (sqlite_guard q) +:+ ")" +:+ line_continuation
              +:+ "  | sqlite3 -bail " +:+ q), cfg)
  ∧ render_list (sqlite_guard q)
    = "test -f " +:+ q +:+ " && cat || >&2 echo " +:+ q +:+ " not found"
  ∧ sh_word q = Some (SQLiteDB.file_name db)
  ∧ run_list fs (sqlite_guard q)
    = if fs (SQLiteDB.file_name db)
      then ([Sh_test_f q; Sh_cat], true)
      else ([Sh_test_f q; Sh_echo_to_stderr [q; "not"; "found"]], true).
Proof.
  intros q.
  assert (render_list (sqlite_guard q)
          = "test -f " +:+ q +:+ " && cat || >&2 echo " +:+ q +:+ " not found")
    as Hrender.
  { simpl. by rewrite !app_assoc. }
  split_and!.
  - rewrite Hrender. simpl. unfold query_command_SQLiteDB, mret, py_ret.
    fold q. unfold pystr, pystr_string. fold q. by rewrite !app_assoc.
  - exact Hrender.
  - apply sh_word_shlex_quote.
  - subst q. unfold sqlite_guard. cbn [run_list succeeds].
    rewrite sh_word_shlex_quote. cbn [from_option].
    by destruct (fs (SQLiteDB.file_name db)).
Qed.

(** ** Words and what they hold *)

Lemma contains_false p s : ¬ Contains p s → contains p s = false.
Proof.
  intros H. destruct (contains p s) eqn:E; [|done].
  by apply contains_spec in E.
Qed.

Lemma contains_empty p : p ≠ "" → contains p "" = false.
Proof. by destruct p. Qed.

Lemma char_in_app c a b : char_in c (a +:+ b) = char_in c a || char_in c b.
Proof.
  induction a as [|d a IH]; [done|].
  rewrite app_cons. simpl. by rewrite IH, orb_assoc.
Qed.

(** A text that holds [p] holds every character of [p]. *)
Lemma Contains_char_in p s c : char_in c p = true → Contains p s → char_in c s = true.
Proof.
  intros Hc (a & b & ->). rewrite !char_in_app, Hc. by rewrite orb_true_r.
Qed.

Lemma all_chars_char_in P s c :
  all_chars P s = true → P c = false → char_in c s = false.
Proof.
  intros Hs Hc. induction s as [|d s IH]; [done|].
  simpl in *. apply andb_true_iff in Hs as [Hd Hs].
  rewrite (IH Hs), orb_false_r.
  destruct (Ascii.eqb_spec c d) as [->|]; [congruence | done].
Qed.

(** A prefix test does not see past a character that [p] does not hold. *)
Lemma startswith_app_sep p a c b :
  char_in c p = false → startswith p (a +:+ String c b) = startswith p a.
Proof.
  revert a. induction p as [|e p IH]; intros a H; [by destruct a|].
  simpl in H. apply orb_false_iff in H as [Hce Hp].
  destruct a as [|d a].
  - rewrite app_nil_l. simpl. by rewrite Ascii.eqb_sym, Hce.
  - rewrite app_cons. simpl. destruct (Ascii.eqb e d); [by apply IH | done].
Qed.

(** An occurrence of [p] does not straddle a character that [p] does not
    hold. *)
Lemma contains_app_sep p a c b :
  char_in c p = false →
  contains p (a +:+ String c b) = contains p a || contains p b.
Proof.
  intros H. induction a as [|d a IH].
  - rewrite app_nil_l, contains_unfold. destruct p as [|e p]; [done|].
    simpl in H. apply orb_false_iff in H as [Hce _].
    simpl. by rewrite Ascii.eqb_sym, Hce.
  - rewrite app_cons, !contains_unfold, IH.
    rewrite <- app_cons, startswith_app_sep by done.
    by rewrite orb_assoc.
Qed.

(** A text without a blank occurs in a line of words only inside a word. *)
Lemma contains_join_spaces p ws :
  char_in " " p = false → p ≠ "" →
  contains p (join_spaces ws) = existsb (contains p) ws.
Proof.
  intros Hsp Hne. induction ws as [|w ws IH]; [by apply contains_empty|].
  destruct ws as [|w' ws].
  - simpl. by rewrite orb_false_r.
  - change (join_spaces (w :: w' :: ws))
      with (w +:+ String " " (join_spaces (w' :: ws))).
    rewrite contains_app_sep by done. by rewrite IH.
Qed.

(** The PostgreSQL command is its words joined by single blanks. *)
Lemma query_command_PostgreSQLDB_words db timezone echo_queries cfg tz :
  timezone_or_default timezone cfg = (Returns tz, cfg) →
  query_command (PDb (PostgreSQL db)) timezone echo_queries cfg
  = (Returns (join_spaces (psql_words db tz echo_queries)), cfg).
Proof.
  intros Htz. simpl. unfold query_command_PostgreSQLDB.
  rewrite (bind_returns _ _ _ _ Htz). unfold mret, py_ret. do 2 f_equal.
  unfold psql_words.
  destruct (truthy (PostgreSQLDB.password db)), (truthy (PostgreSQLDB.user db)),
    (truthy (PostgreSQLDB.host db)), (truthy (PostgreSQLDB.port db)),
    echo_queries, (truthy (PostgreSQLDB.database db));
    cbn [app join_spaces]; by rewrite ?app_assoc.
Qed.

(** [str()] of an integer is a decimal numeral. *)
Lemma pretty_N_go_digits x s :
  all_chars is_digit_or_dash s = true →
  all_chars is_digit_or_dash (pretty_N_go x s) = true.
Proof.
  revert s. induction (N.lt_wf_0 x) as [x _ IH]; intros s Hs.
  destruct (decide (x = 0)%N) as [->|Hx]; [by rewrite pretty_N_go_0|].
  rewrite pretty_N_go_step by lia. apply IH; [apply N.div_lt; lia|].
  simpl. rewrite Hs, andb_true_r. unfold pretty_N_char. by repeat case_match.
Qed.

Lemma pretty_N_digits (x : N) : all_chars is_digit_or_dash (pretty x) = true.
Proof.
  unfold pretty, pretty_N. case_decide; [done|]. by apply pretty_N_go_digits.
Qed.

Lemma pretty_Z_digits (n : Z) : all_chars is_digit_or_dash (pretty n) = true.
Proof.
  destruct n as [|x|x]; [done|apply pretty_N_digits|].
  change (pretty (Z.neg x)) with (String "-" (pretty (N.pos x))).
  simpl. apply pretty_N_digits.
Qed.

(** No flag of the command occurs in a decimal numeral. *)
Lemma flag_not_in_numeral fld (n : Z) : contains (flag_of fld) (pretty n) = false.
Proof.
  apply contains_false. intros H.
  assert (∃ c, char_in c (flag_of fld) = true ∧ is_digit_or_dash c = false)
    as (c & Hc & Hd).
  { destruct fld; [by exists "u"%char | by exists "h"%char
                  | by exists "p"%char | by exists "P"%char]. }
  pose proof (Contains_char_in _ _ _ Hc H) as Hin.
  by rewrite (all_chars_char_in _ _ _ (pretty_Z_digits n) Hd) in Hin.
Qed.

(** One conditional word of the command holds a flag only if the text of
    its attribute does. *)
Lemma segment_free f (o : option string) lit :
  contains f (shown o) = false →
  (truthy o = true → contains f (lit +:+ pystr o) = contains f (pystr o)) →
  existsb (contains f) (if truthy o then [lit +:+ pystr o] else []) = false.
Proof.
  unfold shown. destruct (truthy o); [|done].
  intros H1 H2. simpl. by rewrite H2, H1.
Qed.

(** When an attribute is absent, its flag is in no word of the command,
    unless one of the caller's texts spells it. *)
Lemma psql_words_free fld db tz echo_queries :
  field_truthy fld db = false →
  (∀ v, v ∈ interpolated db tz → ¬ Contains (flag_of fld) v) →
  existsb (contains (flag_of fld)) (psql_words db tz echo_queries) = false.
Proof.
  intros Habs Hfree.
  assert (∀ v, v ∈ interpolated db tz → contains (flag_of fld) v = false) as Hfree'.
  { intros v Hv. by apply contains_false, Hfree. }
  unfold interpolated in Hfree'.
  pose proof (Hfree' tz ltac:(set_solver)) as Htz.
  pose proof (Hfree' (shown (PostgreSQLDB.password db)) ltac:(set_solver)) as Hpw.
  pose proof (Hfree' (shown (PostgreSQLDB.user db)) ltac:(set_solver)) as Hu.
  pose proof (Hfree' (shown (PostgreSQLDB.host db)) ltac:(set_solver)) as Hh.
  pose proof (Hfree' (shown (PostgreSQLDB.database db)) ltac:(set_solver)) as Hd.
  clear Hfree Hfree'.
  unfold psql_words. rewrite !existsb_app.
  rewrite (segment_free _ (PostgreSQLDB.password db)), (segment_free _ (PostgreSQLDB.user db)),
    (segment_free _ (PostgreSQLDB.host db));
    try done; try (intros ?; destruct fld; simpl in *; (congruence || reflexivity)).
  assert (existsb (contains (flag_of fld)) ["PGTZ=" +:+ tz] = false) as ->.
  { cbn [existsb]. rewrite orb_false_r. etrans; [|exact Htz]. by destruct fld. }
  assert (existsb (contains (flag_of fld))
            ["PGOPTIONS=--client-min-messages=warning"; "psql"] = false) as ->
    by (by destruct fld).
  assert (existsb (contains (flag_of fld))
            (if truthy (PostgreSQLDB.port db)
             then ["--port=" +:+ pystr (PostgreSQLDB.port db)] else []) = false) as ->.
  { destruct (truthy (PostgreSQLDB.port db)) eqn:Hport; [|done].
    assert (fld ≠ Port) as Hfld by (intros ->; simpl in Habs; congruence).
    destruct (PostgreSQLDB.port db) as [n|]; [|done].
    cbn [existsb]. rewrite orb_false_r.
    etrans; [|exact (flag_not_in_numeral fld n)].
    by destruct fld. }
  assert (existsb (contains (flag_of fld))
            (if echo_queries then ["--echo-all"] else [""]) = false) as ->
    by (by destruct fld, echo_queries).
  cbn [existsb orb]. fold (shown (PostgreSQLDB.database db)).
  rewrite Hd. by destruct fld.
Qed.

(** ** PostgreSQL: absent attributes leave no flag *)

(** C7: when the user, the host, the port or the password of a PostgreSQL
    descriptor is [None] or empty, the text of its flag ([--username],
    [--host], [--port], [PGPASSWORD]) is nowhere in the command, provided
    none of the texts the caller supplies (the timezone in effect and the
    other attributes) spells it.  For the descriptor with host [localhost]
    and database [test] only, the command has no [--username], holds
    [--host=localhost] and ends with [test]. *)
Theorem query_command_postgres_omits_absent :
  (∀ db timezone echo_queries cfg tz fld,
     timezone_or_default timezone cfg = (Returns tz, cfg) →
     field_truthy fld db = false →
     (∀ v, v ∈ interpolated db tz → ¬ Contains (flag_of fld) v) →
     ∃ out,
       query_command (PDb (PostgreSQL db)) timezone echo_queries cfg = (Returns out, cfg)
       ∧ ¬ Contains (flag_of fld) out)
  ∧ (∀ timezone echo_queries cfg tz,
       timezone_or_default timezone cfg = (Returns tz, cfg) →
       ¬ Contains "--username" tz →
       ∃ out,
         query_command
           (PDb (PostgreSQL
              (PostgreSQLDB.mk (Some "localhost") None (Some "test") None None)))
           timezone echo_queries cfg = (Returns out, cfg)
         ∧ ¬ Contains "--username" out
         ∧ Contains "--host=localhost" out
         ∧ EndsWith "test" out).
Proof.
  assert (∀ db timezone echo_queries cfg tz fld,
     timezone_or_default timezone cfg = (Returns tz, cfg) →
     field_truthy fld db = false →
     (∀ v, v ∈ interpolated db tz → ¬ Contains (flag_of fld) v) →
     ∃ out,
       query_command (PDb (PostgreSQL db)) timezone echo_queries cfg = (Returns out, cfg)
       ∧ ¬ Contains (flag_of fld) out) as Hgeneral.
  { intros db timezone echo_queries cfg tz fld Htz Habs Hfree.
    eexists. split; [by apply query_command_PostgreSQLDB_words|].
    apply not_contains. rewrite contains_join_spaces by (by destruct fld).
    by apply psql_words_free. }
  split; [exact Hgeneral|].
  intros timezone echo_queries cfg tz Htz Hfree.
  set (db := PostgreSQLDB.mk (Some "localhost") None (Some "test") None None).
  destruct (Hgeneral db timezone echo_queries cfg tz User Htz eq_refl)
    as (out & Hout & Hno).
  { intros v Hv. unfold interpolated in Hv. simpl in Hv.
    rewrite !elem_of_cons, elem_of_nil in Hv.
    destruct Hv as [->|[->|[->|[->|[->|[]]]]]];
      [done | by apply not_contains..]. }
  exists out. split; [exact Hout|]. split; [exact Hno|].
  rewrite (query_command_PostgreSQLDB_words _ _ _ _ _ Htz) in Hout.
  injection Hout as <-. split.
  - exists ("PGTZ=" +:+ tz +:+ " PGOPTIONS=--client-min-messages=warning psql "),
      ((if echo_queries then " --echo-all" else " ")
       +:+ " --no-psqlrc --set ON_ERROR_STOP=on test").
    destruct echo_queries; cbn [psql_words db app join_spaces truthy]; simpl;
      by rewrite ?app_assoc.
  - exists ("PGTZ=" +:+ tz
            +:+ " PGOPTIONS=--client-min-messages=warning psql --host=localhost"
            +:+ (if echo_queries then " --echo-all" else " ")
            +:+ " --no-psqlrc --set ON_ERROR_STOP=on ").
    destruct echo_queries; simpl; by rewrite ?app_assoc.
Qed.

Lemma query_command_postgres_omits_absent_witness :
  let cfg := mk_config ∅ "Europe/Berlin" in
  (∃ out,
     query_command
       (PDb (PostgreSQL (PostgreSQLDB.mk (Some "db.example.org") (Some 5432%Z)
                           (Some "dwh") (Some "") None)))
       None false cfg = (Returns out, cfg)
     ∧ ¬ Contains (flag_of Password) out)
  ∧ (∃ out,
       query_command
         (PDb (PostgreSQL
            (PostgreSQLDB.mk (Some "localhost") None (Some "test") None None)))
         None true cfg = (Returns out, cfg)
       ∧ ¬ Contains "--username" out
       ∧ Contains "--host=localhost" out
       ∧ EndsWith "test" out).
Proof.
  intros cfg. split.
  - apply (proj1 query_command_postgres_omits_absent _ None false cfg
             "Europe/Berlin" Password); [reflexivity | reflexivity |].
    intros v Hv. apply not_contains. unfold interpolated in Hv. simpl in Hv.
    rewrite !elem_of_cons, elem_of_nil in Hv.
    destruct Hv as [->|[->|[->|[->|[->|[]]]]]]; reflexivity.
  - apply (proj2 query_command_postgres_omits_absent None true cfg
             "Europe/Berlin"); [reflexivity|].
    apply not_contains. reflexivity.
Defined.

(** ** MySQL and SQLServer: the commands as words *)

Lemma query_command_MysqlDB_words db timezone echo_queries cfg :
  query_command (PDb (Mysql db)) timezone echo_queries cfg
  = (Returns (join_spaces (mysql_words db)), cfg).
Proof.
  simpl. unfold query_command_MysqlDB, mret, py_ret. do 2 f_equal.
  unfold mysql_words.
  destruct (truthy (MysqlDB.password db)), (truthy (MysqlDB.user db)),
    (truthy (MysqlDB.host db)), (truthy (MysqlDB.port db)),
    (truthy (MysqlDB.ssl db)), (truthy (MysqlDB.database db));
    cbn [app join_spaces]; by rewrite ?app_assoc, ?app_nil_r.
Qed.

Lemma query_command_SQLServerDB_words db timezone echo_queries cfg :
  query_command (PDb (SQLServer db)) timezone echo_queries cfg
  = (Returns (sqsh_prelude +:+ join_spaces (sqsh_words db)), cfg).
Proof.
  simpl. unfold query_command_SQLServerDB, mret, py_ret. do 2 f_equal.
  unfold sqsh_words.
  destruct (truthy (SQLServerDB.user db)), (truthy (SQLServerDB.password db)),
    (truthy (SQLServerDB.host db)), (truthy (SQLServerDB.database db));
    cbn [app join_spaces]; by rewrite ?app_assoc, ?app_nil_r.
Qed.

(** A text with a character that no numeral has is in no numeral. *)
Lemma numeral_free f c (n : Z) :
  char_in c f = true → is_digit_or_dash c = false → contains f (pretty n) = false.
Proof.
  intros Hc Hd. apply contains_false. intros H.
  pose proof (Contains_char_in _ _ _ Hc H) as Hin.
  by rewrite (all_chars_char_in _ _ _ (pretty_Z_digits n) Hd) in Hin.
Qed.

Lemma mysql_words_free fld db :
  mysql_field_truthy fld db = false →
  (∀ v, v ∈ mysql_interpolated db → ¬ Contains (mysql_flag_of fld) v) →
  existsb (contains (mysql_flag_of fld)) (mysql_words db) = false.
Proof.
  intros Habs Hfree.
  assert (∀ v, v ∈ mysql_interpolated db → contains (mysql_flag_of fld) v = false)
    as Hfree'.
  { intros v Hv. by apply contains_false, Hfree. }
  unfold mysql_interpolated in Hfree'.
  pose proof (Hfree' (shown (MysqlDB.password db)) ltac:(set_solver)) as Hpw.
  pose proof (Hfree' (shown (MysqlDB.user db)) ltac:(set_solver)) as Hu.
  pose proof (Hfree' (shown (MysqlDB.host db)) ltac:(set_solver)) as Hh.
  pose proof (Hfree' (shown (MysqlDB.database db)) ltac:(set_solver)) as Hd.
  clear Hfree Hfree'.
  unfold mysql_words. rewrite !existsb_app.
  rewrite (segment_free _ (MysqlDB.user db)), (segment_free _ (MysqlDB.host db));
    try done; try (intros ?; destruct fld; simpl in *; (congruence || reflexivity)).
  assert (existsb (contains (mysql_flag_of fld))
            (if truthy (MysqlDB.password db)
             then ["MYSQL_PWD='" +:+ pystr (MysqlDB.password db) +:+ "'"]
             else []) = false) as ->.
  { destruct (truthy (MysqlDB.password db)) eqn:Hpass; [|done].
    assert (fld ≠ MyPassword) as Hfld by (intros ->; simpl in Habs; congruence).
    unfold shown in Hpw. rewrite Hpass in Hpw.
    cbn [existsb]. rewrite orb_false_r.
    rewrite <- (app_assoc "MYSQL_PWD='" _ "'").
    rewrite (contains_app_sep _ _ "'" "") by (by destruct fld).
    rewrite (contains_empty (mysql_flag_of fld)), orb_false_r by (by destruct fld).
    etrans; [|exact Hpw]. by destruct fld. }
  assert (existsb (contains (mysql_flag_of fld)) ["mysql"; ""] = false) as ->
    by (by destruct fld).
  assert (existsb (contains (mysql_flag_of fld))
            (if truthy (MysqlDB.port db)
             then ["--port=" +:+ pystr (MysqlDB.port db)] else []) = false) as ->.
  { destruct (truthy (MysqlDB.port db)) eqn:Hport; [|done].
    assert (fld ≠ MyPort) as Hfld by (intros ->; simpl in Habs; congruence).
    destruct (MysqlDB.port db) as [n|]; [|done].
    cbn [existsb]. rewrite orb_false_r.
    transitivity (contains (mysql_flag_of fld) (pretty n)); [by destruct fld|].
    destruct fld;
      [by apply (numeral_free _ "u") | by apply (numeral_free _ "h") | done
      | by apply (numeral_free _ "s") | by apply (numeral_free _ "M")]. }
  assert (existsb (contains (mysql_flag_of fld))
            (if truthy (MysqlDB.ssl db) then ["--ssl"] else []) = false) as ->.
  { destruct (truthy (MysqlDB.ssl db)) eqn:Hssl; [|done].
    destruct fld; simpl in Habs; (congruence || reflexivity). }
  unfold shown in Hd.
  destruct (truthy (MysqlDB.database db)); [|done].
  cbn [existsb orb]. by rewrite Hd.
Qed.

(** X1: when the user, the host, the port, the [ssl] flag or the password of
    a MySQL descriptor is [None], empty, zero or false, the text of its
    flag ([--user], [--host], [--port], [--ssl], [MYSQL_PWD]) is nowhere in
    the command, provided none of the attribute texts that the command
    shows spells it. *)
Theorem query_command_mysql_omits_absent
    (db : MysqlDB.t) (timezone : option string) (echo_queries : bool)
    (cfg : config) (fld : mysql_field) :
  mysql_field_truthy fld db = false →
  (∀ v, v ∈ mysql_interpolated db → ¬ Contains (mysql_flag_of fld) v) →
  ∃ out,
    query_command (PDb (Mysql db)) timezone echo_queries cfg = (Returns out, cfg)
    ∧ ¬ Contains (mysql_flag_of fld) out.
Proof.
  intros Habs Hfree. eexists. split; [apply query_command_MysqlDB_words|].
  apply not_contains. rewrite contains_join_spaces by (by destruct fld).
  by apply mysql_words_free.
Qed.

Lemma query_command_mysql_omits_absent_witness :
  let cfg := mk_config ∅ "Europe/Berlin" in
  ∃ out,
    query_command
      (PDb (Mysql (MysqlDB.mk (Some "db.example.org") (Some 3306%Z) (Some "shop")
                     (Some "reader") (Some "s3cret") None)))
      None true cfg = (Returns out, cfg)
    ∧ ¬ Contains (mysql_flag_of MySsl) out.
Proof.
  intros cfg.
  apply (query_command_mysql_omits_absent _ None true cfg MySsl); [reflexivity|].
  intros v Hv. apply not_contains. unfold mysql_interpolated in Hv. simpl in Hv.
  rewrite !elem_of_cons, elem_of_nil in Hv.
  destruct Hv as [->|[->|[->|[->|[]]]]]; reflexivity.
Defined.

Lemma sqsh_segment_free f (o : option string) lit :
  contains f (shown o) = false →
  (truthy o = true → contains f lit = false) →
  existsb (contains f) (if truthy o then [lit; pystr o] else []) = false.
Proof.
  unfold shown. destruct (truthy o); [|done].
  intros H1 H2. cbn [existsb]. by rewrite H2, H1.
Qed.

Lemma sqsh_words_free fld db :
  sqsh_field_truthy fld db = false →
  (∀ v, v ∈ sqsh_interpolated db → ¬ Contains (sqsh_flag_of fld) v) →
  existsb (contains (sqsh_flag_of fld)) (sqsh_words db) = false.
Proof.
  intros Habs Hfree.
  assert (∀ v, v ∈ sqsh_interpolated db → contains (sqsh_flag_of fld) v = false)
    as Hfree'.
  { intros v Hv. by apply contains_false, Hfree. }
  unfold sqsh_interpolated in Hfree'.
  pose proof (Hfree' (shown (SQLServerDB.user db)) ltac:(set_solver)) as Hu.
  pose proof (Hfree' (shown (SQLServerDB.password db)) ltac:(set_solver)) as Hpw.
  pose proof (Hfree' (shown (SQLServerDB.host db)) ltac:(set_solver)) as Hh.
  pose proof (Hfree' (shown (SQLServerDB.database db)) ltac:(set_solver)) as Hd.
  clear Hfree Hfree'.
  unfold sqsh_words. rewrite !existsb_app.
  rewrite (sqsh_segment_free _ (SQLServerDB.user db)),
    (sqsh_segment_free _ (SQLServerDB.password db)),
    (sqsh_segment_free _ (SQLServerDB.host db)),
    (sqsh_segment_free _ (SQLServerDB.database db));
    try done; try (intros ?; destruct fld; simpl in *; (congruence || reflexivity)).
  by destruct fld.
Qed.

(** The filters in front of [sqsh] end in a blank and hold none of its
    flags. *)
Lemma sqsh_prelude_free fld s :
  contains (sqsh_flag_of fld) (sqsh_prelude +:+ s) = contains (sqsh_flag_of fld) s.
Proof.
  set (body := "sed 's/\\\\$/\$/g;s/\$/\\\\$/g' | "
     +:+ "(cat && echo ';')" +:+ line_continuation +:+ "  | "
     +:+ "(cat && echo ';" +:+ nl +:+ "\go')" +:+ line_continuation +:+ "  |").
  change sqsh_prelude with (body +:+ String " " "").
  rewrite app_assoc. change (String " " "" +:+ s) with (String " " s).
  rewrite contains_app_sep by (by destruct fld).
  by destruct fld.
Qed.

(** X2: when the user, the password, the host or the database of a
    SQLServer descriptor is [None] or empty, its flag ([-U], [-P], [-S],
    [-D]) is nowhere in the command, provided none of the attribute texts
    that the command shows spells it. *)
Theorem query_command_sqlserver_omits_absent
    (db : SQLServerDB.t) (timezone : option string) (echo_queries : bool)
    (cfg : config) (fld : sqsh_field) :
  sqsh_field_truthy fld db = false →
  (∀ v, v ∈ sqsh_interpolated db → ¬ Contains (sqsh_flag_of fld) v) →
  ∃ out,
    query_command (PDb (SQLServer db)) timezone echo_queries cfg = (Returns out, cfg)
    ∧ ¬ Contains (sqsh_flag_of fld) out.
Proof.
  intros Habs Hfree. eexists. split; [apply query_command_SQLServerDB_words|].
  apply not_contains. rewrite sqsh_prelude_free.
  rewrite contains_join_spaces by (by destruct fld).
  by apply sqsh_words_free.
Qed.

Lemma query_command_sqlserver_omits_absent_witness :
  let cfg := mk_config ∅ "Europe/Berlin" in
  ∃ out,
    query_command
      (PDb (SQLServer (SQLServerDB.mk (Some "mssql.example.org") (Some "sales")
                         (Some "reader") None)))
      None true cfg = (Returns out, cfg)
    ∧ ¬ Contains (sqsh_flag_of MsPassword) out.
Proof.
  intros cfg.
  apply (query_command_sqlserver_omits_absent _ None true cfg MsPassword);
    [reflexivity|].
  intros v Hv. apply not_contains. unfold sqsh_interpolated in Hv. simpl in Hv.
  rewrite !elem_of_cons, elem_of_nil in Hv.
  destruct Hv as [->|[->|[->|[->|[]]]]]; reflexivity.
Defined.

(** ** PostgreSQL: the echo flag *)

Lemma psql_words_no_echo db tz :
  (∀ v, v ∈ interpolated db tz → ¬ Contains "--echo-all" v) →
  existsb (contains "--echo-all") (psql_words db tz false) = false.
Proof.
  intros Hfree.
  assert (∀ v, v ∈ interpolated db tz → contains "--echo-all" v = false) as Hfree'.
  { intros v Hv. by apply contains_false, Hfree. }
  unfold interpolated in Hfree'.
  pose proof (Hfree' tz ltac:(set_solver)) as Htz.
  pose proof (Hfree' (shown (PostgreSQLDB.password db)) ltac:(set_solver)) as Hpw.
  pose proof (Hfree' (shown (PostgreSQLDB.user db)) ltac:(set_solver)) as Hu.
  pose proof (Hfree' (shown (PostgreSQLDB.host db)) ltac:(set_solver)) as Hh.
  pose proof (Hfree' (shown (PostgreSQLDB.database db)) ltac:(set_solver)) as Hd.
  clear Hfree Hfree'.
  unfold psql_words. rewrite !existsb_app.
  rewrite (segment_free _ (PostgreSQLDB.password db)),
    (segment_free _ (PostgreSQLDB.user db)), (segment_free _ (PostgreSQLDB.host db));
    try done.
  assert (existsb (contains "--echo-all") ["PGTZ=" +:+ tz] = false) as ->.
  { cbn [existsb]. rewrite orb_false_r. by etrans; [|exact Htz]. }
  assert (existsb (contains "--echo-all")
            (if truthy (PostgreSQLDB.port db)
             then ["--port=" +:+ pystr (PostgreSQLDB.port db)] else []) = false) as ->.
  { destruct (truthy (PostgreSQLDB.port db)) eqn:Hport; [|done].
    destruct (PostgreSQLDB.port db) as [n|]; [|done].
    cbn [existsb]. rewrite orb_false_r.
    transitivity (contains "--echo-all" (pretty n)); [done|].
    by apply (numeral_free _ "e"). }
  cbn [existsb orb]. fold (shown (PostgreSQLDB.database db)).
  by rewrite Hd.
Qed.

Lemma psql_words_echo db tz :
  existsb (contains "--echo-all") (psql_words db tz true) = true.
Proof.
  apply existsb_exists. exists "--echo-all". split; [|done].
  unfold psql_words. do 6 (apply in_or_app; right).
  apply in_or_app. left. by left.
Qed.

(** X3: for PostgreSQL [echo_queries] decides whether the command holds
    [--echo-all]: it does when the argument is true, and it does not when
    the argument is false, provided none of the texts the caller supplies
    spells the flag. *)
Theorem query_command_postgres_echo
    (db : PostgreSQLDB.t) (timezone : option string) (echo_queries : bool)
    (cfg : config) (tz : string) :
  timezone_or_default timezone cfg = (Returns tz, cfg) →
  (∀ v, v ∈ interpolated db tz → ¬ Contains "--echo-all" v) →
  ∃ out,
    query_command (PDb (PostgreSQL db)) timezone echo_queries cfg = (Returns out, cfg)
    ∧ (Contains "--echo-all" out ↔ echo_queries = true).
Proof.
  intros Htz Hfree. eexists. split; [by apply query_command_PostgreSQLDB_words|].
  rewrite <- contains_spec, contains_join_spaces by done.
  destruct echo_queries.
  - by rewrite psql_words_echo.
  - by rewrite psql_words_no_echo.
Qed.

Lemma query_command_postgres_echo_witness :
  let cfg := mk_config ∅ "Europe/Berlin" in
  ∃ out,
    query_command
      (PDb (PostgreSQL (PostgreSQLDB.mk (Some "localhost") (Some 5432%Z)
                          (Some "dwh") (Some "etl") None)))
      None false cfg = (Returns out, cfg)
    ∧ (Contains "--echo-all" out ↔ false = true).
Proof.
  intros cfg.
  apply (query_command_postgres_echo _ None false cfg "Europe/Berlin");
    [reflexivity|].
  intros v Hv. apply not_contains. unfold interpolated in Hv. simpl in Hv.
  rewrite !elem_of_cons, elem_of_nil in Hv.
  destruct Hv as [->|[->|[->|[->|[->|[]]]]]]; reflexivity.
Defined.

(** The command starts with the timezone assignment; what follows does
    not depend on the timezone. *)
Lemma psql_words_join_head db tz echo_queries :
  join_spaces (psql_words db tz echo_queries)
  = "PGTZ=" +:+ tz +:+ " " +:+ join_spaces (tail (psql_words db "" echo_queries)).
Proof.
  unfold psql_words. cbn [app tail].
  destruct (truthy (PostgreSQLDB.password db));
    cbn [app join_spaces]; by rewrite ?app_assoc.
Qed.

(** The options that [copy_to_stdout_command] appends for PostgreSQL. *)
Lemma copy_to_stdout_command_PostgreSQLDB_eq db cfg :
  copy_to_stdout_command (PDb (PostgreSQL db)) cfg
  = (Returns (join_spaces (psql_words db (default_timezone cfg) false)
              +:+ (" --tuples-only --no-align --field-separator='" +:+ tab +:+ "'"
                   +:+ line_continuation)
              +:+ "  | sed '/^$/d'"), cfg).
Proof.
  assert (timezone_or_default None cfg = (Returns (default_timezone cfg), cfg))
    as Htz by done.
  pose proof (query_command_PostgreSQLDB_words db None false cfg _ Htz) as Hqc.
  simpl. unfold copy_to_stdout_command_PostgreSQLDB.
  by rewrite (bind_returns _ _ _ _ Hqc).
Qed.



(** ** Which arguments reach which command *)

(** X5: for PostgreSQL the timezone argument and the configuration reach
    the command only through the [PGTZ] assignment at its start: an
    argument that is [None] or empty gives the default timezone, any other
    argument is used as it is and the default is not read, and the rest of
    the command is the same for every timezone and configuration. *)
Theorem query_command_postgres_timezone
    (db : PostgreSQLDB.t) (echo_queries : bool) :
  ∃ rest, ∀ (timezone : option string) (cfg : config),
    query_command (PDb (PostgreSQL db)) timezone echo_queries cfg
    = (Returns ("PGTZ="
                +:+ match timezone with
                    | Some (String c tz) => String c tz
                    | Some EmptyString | None => default_timezone cfg
                    end
                +:+ " " +:+ rest), cfg).
Proof.
  exists (join_spaces (tail (psql_words db "" echo_queries))).
  intros timezone cfg. rewrite <- psql_words_join_head.
  apply query_command_PostgreSQLDB_words.
  by destruct timezone as [[|c tz]|].
Qed.

(** X6: for MySQL, SQLServer and SQLite neither the timezone, nor
    [echo_queries], nor the configuration has any effect on the command. *)
Theorem query_command_options_only_postgres
    (my : MysqlDB.t) (ms : SQLServerDB.t) (lite : SQLiteDB.t)
    (tz tz' : option string) (e e' : bool) (cfg cfg' : config) :
  (query_command (PDb (Mysql my)) tz e cfg).1
  = (query_command (PDb (Mysql my)) tz' e' cfg').1
  ∧ (query_command (PDb (SQLServer ms)) tz e cfg).1
    = (query_command (PDb (SQLServer ms)) tz' e' cfg').1
  ∧ (query_command (PDb (SQLite lite)) tz e cfg).1
    = (query_command (PDb (SQLite lite)) tz' e' cfg').1.
Proof.
  rewrite !query_command_MysqlDB_words, !query_command_SQLServerDB_words.
  split_and!; reflexivity.
Qed.

(** ** Aliases *)

(** X7: [query_command] on an alias returns exactly what it returns on the
    descriptor that the alias is configured for, and that is always a
    command; on an alias that is not configured it raises
    [AliasNotFound] with the alias. *)
Theorem query_command_alias
    (a : string) (timezone : option string) (echo_queries : bool) (cfg : config) :
  match databases cfg !! a with
  | Some d =>
      query_command (PStr a) timezone echo_queries cfg
      = query_command (PDb d) timezone echo_queries cfg
      ∧ ∃ cmd, query_command (PStr a) timezone echo_queries cfg = (Returns cmd, cfg)
  | None =>
      query_command (PStr a) timezone echo_queries cfg = (Raises (AliasNotFound a), cfg)
  end.
Proof.
  destruct (databases cfg !! a) as [d|] eqn:Ha.
  - assert (query_command (PStr a) timezone echo_queries cfg
            = query_command (PDb d) timezone echo_queries cfg) as Heq.
    { simpl. by rewrite (bind_returns _ _ _ _ (dbs_db_returns _ _ _ Ha)). }
    split; [exact Heq|]. rewrite Heq. apply query_command_returns.
  - simpl. apply bind_raises. unfold dbs_db. by rewrite Ha.
Qed.

(** X8: [copy_to_stdout_command] on an alias returns exactly what it
    returns on the descriptor that the alias is configured for, which is a
    command for each of the four classes; on an alias that is not
    configured it raises [AliasNotFound] with the alias. *)
Theorem copy_to_stdout_command_alias (a : string) (cfg : config) :
  match databases cfg !! a with
  | Some d =>
      copy_to_stdout_command (PStr a) cfg = copy_to_stdout_command (PDb d) cfg
      ∧ ∃ cmd, copy_to_stdout_command (PStr a) cfg = (Returns cmd, cfg)
  | None => copy_to_stdout_command (PStr a) cfg = (Raises (AliasNotFound a), cfg)
  end.
Proof.
  destruct (databases cfg !! a) as [d|] eqn:Ha.
  - assert (copy_to_stdout_command (PStr a) cfg = copy_to_stdout_command (PDb d) cfg)
      as Heq.
    { simpl. by rewrite (bind_returns _ _ _ _ (dbs_db_returns _ _ _ Ha)). }
    split; [exact Heq|]. rewrite Heq. apply copy_to_stdout_command_returns.
  - simpl. apply bind_raises. unfold dbs_db. by rewrite Ha.
Qed.

(** X9: [copy_from_stdin_command] on an alias resolves the alias first: a
    PostgreSQL descriptor gives the command of that descriptor, a
    descriptor of another class raises [NotImplementedError] naming that
    class (not [str]), and an alias that is not configured raises
    [AliasNotFound]. *)
Theorem copy_from_stdin_command_alias
    (a tbl : string) (csv_format skip_header : bool)
    (delimiter_char quote_char null_value_string tz : option string) (cfg : config) :
  match databases cfg !! a with
  | Some (PostgreSQL db) =>
      copy_from_stdin_command (PStr a) tbl csv_format skip_header
        delimiter_char quote_char null_value_string tz cfg
      = copy_from_stdin_command (PDb (PostgreSQL db)) tbl csv_format skip_header
          delimiter_char quote_char null_value_string tz cfg
      ∧ ∃ cmd, copy_from_stdin_command (PStr a) tbl csv_format skip_header
                 delimiter_char quote_char null_value_string tz cfg
               = (Returns cmd, cfg)
  | Some d =>
      copy_from_stdin_command (PStr a) tbl csv_format skip_header
        delimiter_char quote_char null_value_string tz cfg
      = (Raises (NotImplementedError
           ("Please implement copy_from_stdin_command for type " +:+ dquote
            +:+ class_name_of (PDb d) +:+ dquote)), cfg)
  | None =>
      copy_from_stdin_command (PStr a) tbl csv_format skip_header
        delimiter_char quote_char null_value_string tz cfg
      = (Raises (AliasNotFound a), cfg)
  end.
Proof.
  destruct (databases cfg !! a) as [d|] eqn:Ha.
  - assert (copy_from_stdin_command (PStr a) tbl csv_format skip_header
              delimiter_char quote_char null_value_string tz cfg
            = copy_from_stdin_command (PDb d) tbl csv_format skip_header
                delimiter_char quote_char null_value_string tz cfg) as Heq.
    { simpl. by rewrite (bind_returns _ _ _ _ (dbs_db_returns _ _ _ Ha)). }
    destruct d as [db|db|db|db]; [|by rewrite Heq..].
    split; [exact Heq|]. rewrite Heq.
    destruct (query_command_returns (PostgreSQL db) tz true cfg) as [qc Hqc].
    eexists. by apply copy_from_stdin_command_PostgreSQLDB_eq.
  - simpl. apply bind_raises. unfold dbs_db. by rewrite Ha.
Qed.

(** X10: [copy_command] with a descriptor as the source and an alias as the
    target resolves the alias and then dispatches on the two classes: a
    PostgreSQL target gives the command of the two descriptors, a target
    of another class raises [NotImplementedError] naming the two classes,
    and an alias that is not configured raises [AliasNotFound]. *)
Theorem copy_command_target_alias
    (s : DB) (a tbl : string) (tz : option string) (cfg : config) :
  match databases cfg !! a with
  | Some (PostgreSQL t) =>
      copy_command (PDb s) (PStr a) tbl tz cfg
      = copy_command (PDb s) (PDb (PostgreSQL t)) tbl tz cfg
      ∧ ∃ cmd, copy_command (PDb s) (PStr a) tbl tz cfg = (Returns cmd, cfg)
  | Some t =>
      copy_command (PDb s) (PStr a) tbl tz cfg
      = (Raises (NotImplementedError
           ("Please implement copy_command for types " +:+ dquote
            +:+ class_name_of (PDb s) +:+ dquote +:+ " and " +:+ dquote
            +:+ class_name_of (PDb t) +:+ dquote)), cfg)
  | None => copy_command (PDb s) (PStr a) tbl tz cfg = (Raises (AliasNotFound a), cfg)
  end.
Proof.
  destruct (databases cfg !! a) as [t|] eqn:Ha.
  - assert (copy_command (PDb s) (PStr a) tbl tz cfg
            = copy_command (PDb s) (PDb t) tbl tz cfg) as Heq.
    { simpl. by rewrite (bind_returns _ _ _ _ (dbs_db_returns _ _ _ Ha)). }
    destruct t as [t|t|t|t]; [|rewrite Heq; by destruct s..].
    split; [exact Heq|]. rewrite Heq. apply copy_command_to_postgres_returns.
  - simpl. apply bind_raises. unfold dbs_db. by rewrite Ha.
Qed.

(** X11: [copy_command] with two aliases looks up the source first and the
    target second, and then behaves as on the two descriptors; the first
    alias that is not configured is the one [AliasNotFound] names. *)
Theorem copy_command_two_aliases
    (a b tbl : string) (tz : option string) (cfg : config) :
  match databases cfg !! a, databases cfg !! b with
  | Some s, Some t =>
      copy_command (PStr a) (PStr b) tbl tz cfg
      = copy_command (PDb s) (PDb t) tbl tz cfg
  | Some _, None =>
      copy_command (PStr a) (PStr b) tbl tz cfg = (Raises (AliasNotFound b), cfg)
  | None, _ =>
      copy_command (PStr a) (PStr b) tbl tz cfg = (Raises (AliasNotFound a), cfg)
  end.
Proof.
  destruct (databases cfg !! a) as [s|] eqn:Ha.
  - destruct (databases cfg !! b) as [t|] eqn:Hb; simpl;
      rewrite (bind_returns _ _ _ _ (dbs_db_returns _ _ _ Ha)).
    + by rewrite (bind_returns _ _ _ _ (dbs_db_returns _ _ _ Hb)).
    + apply bind_raises. unfold dbs_db. by rewrite Hb.
  - simpl. apply bind_raises. unfold dbs_db. by rewrite Ha.
Qed.

(** ** The other three pipelines *)

(** The start of the loader's command is the timezone assignment, with the
    timezone argument when it is given and not empty. *)
Lemma copy_from_stdin_command_postgres_head db tbl csv hd dl q n timezone cfg :
  ∃ rest,
    copy_from_stdin_command (PDb (PostgreSQL db)) tbl csv hd dl q n timezone cfg
    = (Returns ("PGTZ="
                +:+ match timezone with
                    | Some (String c tz) => String c tz
                    | Some EmptyString | None => default_timezone cfg
                    end
                +:+ " " +:+ rest
                +:+ "--command=" +:+ dquote +:+ copy_sql tbl csv hd dl q n +:+ dquote),
       cfg).
Proof.
  set (tzv := match timezone with
              | Some (String c tz) => String c tz
              | Some EmptyString | None => default_timezone cfg
              end).
  assert (timezone_or_default timezone cfg = (Returns tzv, cfg)) as Htz
    by (by destruct timezone as [[|c tz]|]).
  exists (join_spaces (tail (psql_words db "" true)) +:+ line_continuation +:+ "      ").
  rewrite (copy_from_stdin_command_PostgreSQLDB_eq _ _ _ _ _ _ _ _ _ _
             (query_command_PostgreSQLDB_words db timezone true cfg tzv Htz)).
  rewrite psql_words_join_head.
  change ("      --command=" +:+ ?x) with ("      " +:+ "--command=" +:+ x).
  by rewrite !app_assoc.
Qed.

(** X12: for a PostgreSQL source and a PostgreSQL target [copy_command] is
    the dump of the source piped into the loader of the target with the
    empty string as the NULL text and no other option.  The timezone
    argument reaches the loader only: the dump runs under the default
    timezone of the configuration whatever the argument is. *)
Theorem copy_command_postgres_to_postgres
    (source_db target_db : PostgreSQLDB.t) (tbl : string)
    (tz : option string) (cfg : config) :
  ∃ out inp rest_out rest_inp,
    copy_to_stdout_command (PDb (PostgreSQL source_db)) cfg = (Returns out, cfg)
    ∧ copy_from_stdin_command (PDb (PostgreSQL target_db)) tbl
        false false None None (Some "") tz cfg = (Returns inp, cfg)
    ∧ copy_command (PDb (PostgreSQL source_db)) (PDb (PostgreSQL target_db)) tbl tz cfg
      = (Returns (out +:+ pipe +:+ inp), cfg)
    ∧ out = "PGTZ=" +:+ default_timezone cfg +:+ " " +:+ rest_out
    ∧ inp = "PGTZ="
            +:+ match tz with
                | Some (String c tz) => String c tz
                | Some EmptyString | None => default_timezone cfg
                end
            +:+ " " +:+ rest_inp
            +:+ "--command=" +:+ dquote +:+ "COPY " +:+ tbl
            +:+ " FROM STDIN WITH NULL AS ''" +:+ dquote.
Proof.
  destruct (copy_from_stdin_command_postgres_head
              target_db tbl false false None None (Some "") tz cfg) as [rest_inp Hinp].
  eexists _, _, _, rest_inp.
  split; [apply copy_to_stdout_command_PostgreSQLDB_eq|].
  split; [exact Hinp|]. split; [|split].
  - apply pipeline_returns; [apply copy_to_stdout_command_PostgreSQLDB_eq | exact Hinp].
  - rewrite psql_words_join_head. by rewrite !app_assoc.
  - unfold copy_sql, pystr, pystr_string. by rewrite !app_assoc.
Qed.

(** X13: for a MySQL source and a PostgreSQL target [copy_command] is the
    [mysql] command with [--skip-column-names] piped into what
    [copy_from_stdin_command] returns for the target with [NULL] as the
    NULL text, no other option, and the timezone argument. *)
Theorem copy_command_mysql_to_postgres
    (source_db : MysqlDB.t) (target_db : PostgreSQLDB.t) (tbl : string)
    (tz : option string) (cfg : config) :
  ∃ qc inp rest_inp,
    query_command (PDb (Mysql source_db)) None true cfg = (Returns qc, cfg)
    ∧ copy_to_stdout_command (PDb (Mysql source_db)) cfg
      = (Returns (qc +:+ " --skip-column-names"), cfg)
    ∧ copy_from_stdin_command (PDb (PostgreSQL target_db)) tbl
        false false None None (Some "NULL") tz cfg = (Returns inp, cfg)
    ∧ copy_command (PDb (Mysql source_db)) (PDb (PostgreSQL target_db)) tbl tz cfg
      = (Returns ((qc +:+ " --skip-column-names") +:+ pipe +:+ inp), cfg)
    ∧ inp = "PGTZ="
            +:+ match tz with
                | Some (String c tz) => String c tz
                | Some EmptyString | None => default_timezone cfg
                end
            +:+ " " +:+ rest_inp
            +:+ "--command=" +:+ dquote +:+ "COPY " +:+ tbl
            +:+ " FROM STDIN WITH NULL AS 'NULL'" +:+ dquote.
Proof.
  destruct (copy_from_stdin_command_postgres_head
              target_db tbl false false None None (Some "NULL") tz cfg)
    as [rest_inp Hinp].
  eexists _, _, rest_inp.
  split; [apply query_command_MysqlDB_words|].
  assert (copy_to_stdout_command (PDb (Mysql source_db)) cfg
          = (Returns (join_spaces (mysql_words source_db) +:+ " --skip-column-names"),
             cfg)) as Hout.
  { simpl. unfold copy_to_stdout_command_MysqlDB.
    by rewrite (bind_returns _ _ _ _
                  (query_command_MysqlDB_words source_db None true cfg)). }
  split; [exact Hout|]. split; [exact Hinp|]. split.
  - apply pipeline_returns; [exact Hout | exact Hinp].
  - unfold copy_sql, pystr, pystr_string. by rewrite !app_assoc.
Qed.

(** X14: for a SQLite source and a PostgreSQL target [copy_command] is the
    guarded [sqlite3] command with [-noheader], a tab as separator and
    [-quote], piped into what [copy_from_stdin_command] returns for the
    target in CSV format with two single quotes as the quote text, [NULL]
    as the NULL text, and the timezone argument. *)
Theorem copy_command_sqlite_to_postgres
    (source_db : SQLiteDB.t) (target_db : PostgreSQLDB.t) (tbl : string)
    (tz : option string) (cfg : config) :
  ∃ qc inp rest_inp,
    query_command (PDb (SQLite source_db)) None true cfg = (Returns qc, cfg)
    ∧ copy_to_stdout_command (PDb (SQLite source_db)) cfg
      = (Returns (qc +:+ " -noheader -separator '" +:+ tab +:+ "' -quote"), cfg)
    ∧ copy_from_stdin_command (PDb (PostgreSQL target_db)) tbl
        true false None (Some "''") (Some "NULL") tz cfg = (Returns inp, cfg)
    ∧ copy_command (PDb (SQLite source_db)) (PDb (PostgreSQL target_db)) tbl tz cfg
      = (Returns ((qc +:+ " -noheader -separator '" +:+ tab +:+ "' -quote")
                  +:+ pipe +:+ inp), cfg)
    ∧ inp = "PGTZ="
            +:+ match tz with
                | Some (String c tz) => String c tz
                | Some EmptyString | None => default_timezone cfg
                end
            +:+ " " +:+ rest_inp
            +:+ "--command=" +:+ dquote +:+ "COPY " +:+ tbl
            +:+ " FROM STDIN WITH CSV NULL AS 'NULL' QUOTE AS ''''" +:+ dquote.
Proof.
  destruct (copy_from_stdin_command_postgres_head
              target_db tbl true false None (Some "''") (Some "NULL") tz cfg)
    as [rest_inp Hinp].
  destruct (query_command_returns (SQLite source_db) None true cfg) as [qc Hqc].
  exists qc. eexists _, rest_inp. split; [exact Hqc|].
  assert (copy_to_stdout_command (PDb (SQLite source_db)) cfg
          = (Returns (qc +:+ " -noheader -separator '" +:+ tab +:+ "' -quote"), cfg))
    as Hout.
  { change (copy_to_stdout_command (PDb (SQLite source_db)))
      with (copy_to_stdout_command_SQLiteDB source_db).
    unfold copy_to_stdout_command_SQLiteDB.
    by rewrite (bind_returns _ _ _ _ Hqc). }
  split; [exact Hout|]. split; [exact Hinp|]. split.
  - apply pipeline_returns; [exact Hout | exact Hinp].
  - unfold copy_sql, pystr, pystr_string. by rewrite !app_assoc.
Qed.

(** X15: the PostgreSQL loader runs [psql] under the timezone argument, or
    under the default timezone when the argument is [None] or empty; it
    always passes [--echo-all], and the [COPY] statement is the last thing
    in the command. *)
Theorem copy_from_stdin_command_postgres_shape
    (db : PostgreSQLDB.t) (tbl : string) (csv_format skip_header : bool)
    (delimiter_char quote_char null_value_string tz : option string) (cfg : config) :
  ∃ cmd rest,
    copy_from_stdin_command (PDb (PostgreSQL db)) tbl csv_format skip_header
      delimiter_char quote_char null_value_string tz cfg = (Returns cmd, cfg)
    ∧ cmd = "PGTZ="
            +:+ match tz with
                | Some (String c tz) => String c tz
                | Some EmptyString | None => default_timezone cfg
                end
            +:+ " " +:+ rest
            +:+ "--command=" +:+ dquote
            +:+ copy_sql tbl csv_format skip_header
                  delimiter_char quote_char null_value_string
            +:+ dquote
    ∧ Contains "--echo-all" rest.
Proof.
  set (tzv := match tz with
              | Some (String c tz) => String c tz
              | Some EmptyString | None => default_timezone cfg
              end).
  assert (timezone_or_default tz cfg = (Returns tzv, cfg)) as Htz
    by (by destruct tz as [[|c tz']|]).
  exists (join_spaces (psql_words db tzv true) +:+ line_continuation
          +:+ "      --command=" +:+ dquote
          +:+ copy_sql tbl csv_format skip_header
                delimiter_char quote_char null_value_string
          +:+ dquote),
    (join_spaces (tail (psql_words db "" true)) +:+ line_continuation +:+ "      ").
  split; [|split].
  - apply copy_from_stdin_command_PostgreSQLDB_eq.
    by apply query_command_PostgreSQLDB_words.
  - rewrite psql_words_join_head.
    change ("      --command=" +:+ ?x) with ("      " +:+ "--command=" +:+ x).
    by rewrite !app_assoc.
  - apply Contains_app_l, contains_spec.
    pose proof (psql_words_echo db "") as Hecho.
    rewrite <- (contains_join_spaces "--echo-all") in Hecho by done.
    rewrite psql_words_join_head in Hecho.
    change ("PGTZ=" +:+ "" +:+ " " +:+ ?x) with ("PGTZ=" +:+ String " " x) in Hecho.
    by rewrite contains_app_sep in Hecho.
Qed.

(** ** [query_command] through the dispatch cache *)

(** What the registry gives for each class. *)
Lemma registry_implementation cls :
  match query_command_registry !! cls with
  | Some impl => impl
  | None => find_impl cls query_command_registry
  end
  = match cls with
    | Class_str => Impl_str
    | Class_PostgreSQLDB => Impl_PostgreSQLDB
    | Class_MysqlDB => Impl_MysqlDB
    | Class_SQLServerDB => Impl_SQLServerDB
    | Class_SQLiteDB => Impl_SQLiteDB
    | Class_object | Class_DB | Class_other _ => Impl_base
    end.
Proof. destruct cls; by vm_compute. Qed.

Lemma cache_sound_empty cfg : cache_sound (mk_process cfg ∅).
Proof. intros cls impl H. simpl in H. by rewrite lookup_empty in H. Qed.

(** From a sound cache [dispatch] gives the implementation of the registry;
    it may extend the cache, which stays sound and then has the class, and
    it leaves the configuration alone. *)
Lemma dispatch_sound cls st :
  cache_sound st →
  ∃ st',
    dispatch cls st
    = (Returns match query_command_registry !! cls with
               | Some impl => impl
               | None => find_impl cls query_command_registry
               end, st')
    ∧ cache_sound st'
    ∧ process_config st' = process_config st
    ∧ dispatch_cache st ⊆ dispatch_cache st'
    ∧ is_Some (dispatch_cache st' !! cls).
Proof.
  intros Hst. unfold dispatch.
  destruct (dispatch_cache st !! cls) as [impl|] eqn:Hcls.
  - exists st. rewrite (Hst _ _ Hcls), Hcls. by split_and!.
  - eexists. split; [reflexivity|]. simpl. split_and!; [|done| |].
    + intros cls' impl' H. simpl in H.
      destruct (decide (cls = cls')) as [<-|Hne].
      * rewrite lookup_insert_eq in H. by injection H as <-.
      * rewrite lookup_insert_ne in H by done. by apply Hst.
    + by apply insert_subseteq.
    + by rewrite lookup_insert_eq.
Qed.

(** A computation that leaves the configuration alone, run in the process,
    leaves the whole state alone. *)
Lemma lift_preserves {A} (m : py A) st :
  preserves m → lift m st = ((m (process_config st)).1, st).
Proof.
  intros Hm. unfold lift. specialize (Hm (process_config st)).
  destruct (m (process_config st)) as [r cfg']. simpl in *. subst.
  by destruct st.
Qed.

Lemma cached_bind_returns {A B} (m : cached A) (f : A → cached B) st a st' :
  m st = (Returns a, st') → (m ≫= f) st = f a st'.
Proof. intros H. unfold mbind, cached_bind. by rewrite H. Qed.

(** The implementation of a descriptor's class, run on the descriptor. *)
Lemma run_implementation_DB d timezone echo_queries again st :
  run_implementation
    match class_of (PDb d) with
    | Class_str => Impl_str
    | Class_PostgreSQLDB => Impl_PostgreSQLDB
    | Class_MysqlDB => Impl_MysqlDB
    | Class_SQLServerDB => Impl_SQLServerDB
    | Class_SQLiteDB => Impl_SQLiteDB
    | Class_object | Class_DB | Class_other _ => Impl_base
    end (PDb d) timezone echo_queries again st
  = ((query_command_DB d timezone echo_queries (process_config st)).1, st).
Proof.
  destruct d as [db|db|db|db]; simpl; (rewrite lift_preserves; [done|]).
  - apply (preserves_query_command_DB (PostgreSQL db) timezone echo_queries).
  - apply (preserves_query_command_DB (Mysql db) timezone echo_queries).
  - apply (preserves_query_command_DB (SQLServer db) timezone echo_queries).
  - apply (preserves_query_command_DB (SQLite db) timezone echo_queries).
Qed.

(** From a sound cache the generic function on a descriptor returns what
    the implementation of the descriptor's class returns. *)
Lemma query_command_cached_DB_sound d timezone echo_queries st :
  cache_sound st →
  ∃ st',
    query_command_cached_DB d timezone echo_queries st
    = ((query_command_DB d timezone echo_queries (process_config st)).1, st')
    ∧ cache_sound st'
    ∧ process_config st' = process_config st
    ∧ dispatch_cache st ⊆ dispatch_cache st'.
Proof.
  intros Hst.
  destruct (dispatch_sound (class_of (PDb d)) st Hst)
    as (st' & Hd & Hst' & Hcfg & Hsub & _).
  exists st'. split; [|done].
  unfold query_command_cached_DB. rewrite (cached_bind_returns _ _ _ _ _ Hd).
  by rewrite registry_implementation, run_implementation_DB, Hcfg.
Qed.

(** From a sound cache the generic function returns what [query_command]
    returns in the configuration of the process; the cache stays sound and
    has the class of the argument afterwards. *)
Lemma query_command_cached_sound db timezone echo_queries st :
  cache_sound st →
  ∃ st',
    query_command_cached db timezone echo_queries st
    = ((query_command db timezone echo_queries (process_config st)).1, st')
    ∧ cache_sound st'
    ∧ process_config st' = process_config st
    ∧ is_Some (dispatch_cache st' !! class_of db).
Proof.
  intros Hst.
  destruct (dispatch_sound (class_of db) st Hst)
    as (st1 & Hd & Hst1 & Hcfg1 & _ & Hin).
  unfold query_command_cached. rewrite (cached_bind_returns _ _ _ _ _ Hd).
  rewrite registry_implementation.
  destruct db as [alias|d|c].
  - (* an alias: look it up, then dispatch again on the descriptor *)
    cbn [class_of run_implementation query_command].
    rewrite <- Hcfg1. unfold mbind at 1, cached_bind.
    rewrite (lift_preserves _ _ (preserves_dbs_db alias)).
    unfold mbind, py_bind, dbs_db.
    destruct (databases (process_config st1) !! alias) as [d|] eqn:Ha; simpl.
    + destruct (query_command_cached_DB_sound d timezone echo_queries st1 Hst1)
        as (st2 & H2 & Hst2 & Hcfg2 & Hsub).
      exists st2. rewrite H2. split_and!; [done|done|congruence|].
      destruct Hin as [impl Himpl]. exists impl.
      by apply (lookup_weaken _ _ _ _ Himpl).
    + by exists st1.
  - (* a descriptor *)
    exists st1. split; [|done].
    by rewrite run_implementation_DB, Hcfg1.
  - (* an object of another class *)
    exists st1. split; [|done]. simpl.
    by rewrite lift_preserves by apply preserves_raise.
Qed.

Lemma run_query_commands_sound calls st :
  cache_sound st →
  cache_sound (run_query_commands calls st)
  ∧ process_config (run_query_commands calls st) = process_config st.
Proof.
  revert st. induction calls as [|[[db tz] e] calls IH]; intros st Hst; [done|].
  destruct (query_command_cached_sound db tz e st Hst)
    as (st' & Hq & Hst' & Hcfg & _).
  simpl. rewrite Hq. simpl.
  destruct (IH st' Hst') as [? ?]. split; [done | congruence].
Qed.

(** A cache with an entry that the registry does not give changes what a
    call returns: the invariant above is what the result rests on. *)
Example query_command_cached_unsound_cache :
  (query_command_cached
     (PDb (PostgreSQL (PostgreSQLDB.mk (Some "localhost") None (Some "test") None None)))
     None true
     (mk_process example_config {[ Class_PostgreSQLDB := Impl_MysqlDB ]})).1
  = Raises (AttributeError "PostgreSQLDB" "ssl").
Proof. by vm_compute. Qed.

(** C9: from the state in which the module is loaded (an empty dispatch
    cache), after any calls of [query_command] whatever their arguments, a
    call of [query_command] returns what it returns as the first call,
    which is what [query_command] returns in the configuration alone; a
    second call with the same arguments returns the same again.  The call
    leaves the configuration as it was; what it writes is the dispatch
    cache, which has the class of the argument afterwards. *)
Theorem query_command_deterministic
    (cfg : config) (before : list (pyobj * option string * bool))
    (db : pyobj) (timezone : option string) (echo_queries : bool) :
  let st0 := mk_process cfg ∅ in
  let st := run_query_commands before st0 in
  let run := query_command_cached db timezone echo_queries in
  (run st).1 = (run st0).1
  ∧ (run (run st).2).1 = (run st).1
  ∧ (run st).1 = (query_command db timezone echo_queries cfg).1
  ∧ process_config (run st).2 = cfg
  ∧ is_Some (dispatch_cache (run st).2 !! class_of db).
Proof.
  intros st0 st run.
  pose proof (cache_sound_empty cfg) as Hst0. fold st0 in Hst0.
  destruct (run_query_commands_sound before st0 Hst0) as [Hst Hcfg].
  fold st in Hst, Hcfg. simpl in Hcfg.
  destruct (query_command_cached_sound db timezone echo_queries st0 Hst0)
    as (st0' & H0 & _).
  destruct (query_command_cached_sound db timezone echo_queries st Hst)
    as (st' & H1 & Hst' & Hcfg' & Hin).
  destruct (query_command_cached_sound db timezone echo_queries st' Hst')
    as (st'' & H2 & _).
  subst run. simpl in *. rewrite H1. simpl. rewrite H0, H2. simpl.
  rewrite Hcfg', Hcfg. by split_and!.
Qed.
